(** * A shallow embedding of [bot.py]: the Telegram command router

    The bot receives one text message, strips it, tests a fixed chain of
    [if] statements on the lowercased text and answers through
    [message.answer].  Three branches call an external service (Google
    Custom Search, the joke API, Vertex AI) and one calls [sympy].

    The embedding keeps the shape of the source:
    - a Python [str] is a list of Unicode code points;
    - [str.strip] and [str.lower] are written out;
    - everything outside the repository (HTTP peers, the Vertex client,
      [sympify], the rest of the Unicode case table) is a field of one
      record [World], so every statement is about all possible worlds;
    - a coroutine is a computation that emits a chronological list of
      [Event]s and ends in a value or in a raised exception. *)

From Stdlib Require Import ZArith NArith Ascii String DecimalString DecimalPos DecimalZ.
From stdpp Require Import base numbers option list gmap.

#[global] Set Warnings "-register-all".

Open Scope N_scope.

(** ** Python strings *)

Module Py.

(** A [str] is the sequence of its code points. *)
Definition str := list N.

(** String literals of the source that are pure ASCII. *)
Definition lit (s : string) : str := N_of_ascii <$> list_ascii_of_string s.

(** [str.isspace] on one code point, as [str.strip()] uses it
    (CPython: [_Py_ascii_whitespace] and [_PyUnicode_IsWhitespace]). *)
Definition is_space (c : N) : bool :=
  ((9 <=? c) && (c <=? 13)) || ((28 <=? c) && (c <=? 32))
  || (c =? 133) || (c =? 160) || (c =? 5760)
  || ((8192 <=? c) && (c <=? 8202))
  || (c =? 8232) || (c =? 8233) || (c =? 8239) || (c =? 8287)
  || (c =? 12288).

Fixpoint lstrip (s : str) : str :=
  match s with
  | c :: s' => if is_space c then lstrip s' else s
  | [] => []
  end.

Definition rstrip (s : str) : str := reverse (lstrip (reverse s)).

(** [s.strip()] *)
Definition strip (s : str) : str := rstrip (lstrip s).

(** [s[n:]] for a non-negative constant [n]: never raises, an offset past
    the end gives the empty string. *)
Definition slice_from (n : nat) (s : str) : str := drop n s.

(** [s.startswith(p)] *)
Fixpoint startswith (s p : str) {struct p} : bool :=
  match p, s with
  | [], _ => true
  | a :: p', b :: s' => (a =? b) && startswith s' p'
  | _ :: _, [] => false
  end.

(** [sep.join(parts)] *)
Fixpoint join (sep : str) (parts : list str) : str :=
  match parts with
  | [] => []
  | [p] => p
  | p :: rest => p ++ sep ++ join sep rest
  end.

(** [str(n)] for an [int]. *)
Definition str_of_int (z : Z) : str := lit (NilZero.string_of_int (Z.to_int z)).

Definition ascii_lower (c : N) : N :=
  if (65 <=? c) && (c <=? 90) then c + 32 else c.

(** Lowercase expansion of the code point [c] standing at index [i] of
    [s].  ASCII is written out, and so are the only two characters
    outside ASCII whose lowercase form contains an ASCII letter (KELVIN
    SIGN and LATIN CAPITAL LETTER I WITH DOT ABOVE).  Every other code
    point is looked up in [ucd], the remaining Unicode table; it sees the
    whole string because of the final-sigma rule. *)
Definition lower_at (ucd : str -> nat -> str) (s : str) (i : nat) (c : N) : str :=
  if c <? 128 then [ascii_lower c]
  else if c =? 8490 then [107]
  else if c =? 304 then [105; 775]
  else ucd s i.

(** [s.lower()] *)
Definition lower (ucd : str -> nat -> str) (s : str) : str :=
  concat (imap (lower_at ucd s) s).

End Py.


Import Py.

(** ** Values that come back from the outside *)

(** A decoded JSON document, the way [resp.json()] hands it to Python:
    [None], [bool], [int], [str], [list], [dict].  (Numbers with a
    fraction are left out.) *)
Inductive json :=
| JNull
| JBool (b : bool)
| JInt (z : Z)
| JStr (s : str)
| JArr (l : list json)
| JObj (m : gmap str json).

(** Python's name of the type of a value, for error texts. *)
Definition type_name (v : json) : str :=
  match v with
  | JNull => lit "NoneType"
  | JBool _ => lit "bool"
  | JInt _ => lit "int"
  | JStr _ => lit "str"
  | JArr _ => lit "list"
  | JObj _ => lit "dict"
  end.

(** Truth value of [v], as in [if not items]. *)
Definition truthy (v : json) : bool :=
  match v with
  | JNull => false
  | JBool b => b
  | JInt z => negb (z =? 0)%Z
  | JStr s => negb (bool_decide (s = []))
  | JArr l => negb (bool_decide (l = []))
  | JObj m => negb (bool_decide (m = ∅))
  end.

Inductive exn_class :=
| SympifyError
| KeyError
| AttributeError
| TypeError
| IndexError
| OtherException.

(** A raised exception: its class and [str(e)]. *)
Record exn := Exn { exn_cls : exn_class; exn_text : str }.

Definition is_SympifyError (e : exn) : bool :=
  match exn_cls e with SympifyError => true | _ => false end.

(** What [session.get] and then [resp.json()] can do. *)
Inductive http_reply :=
| ConnectionFails (e : exn)
| Response (status : Z) (body : exn + json).

(** What [prediction_client.predict] can do.  A prediction is taken to be
    a mapping from field names to text, which is what the annotation
    [-> str] of line 30 promises for the value of line 41; predictions of
    another shape are outside this model. *)
Inductive predict_reply :=
| PredictFails (e : exn)
| Predictions (predictions : list (gmap str str)).

(** What [sympify(expression).evalf()] can do; [Evaluated r] carries the
    text [str(result)] that the f-string renders. *)
Inductive eval_reply :=
| Evaluated (shown : str)
| EvalFails (e : exn).

(** Everything the program reads from outside the repository.
    [build_request prompt] is the exception that the constructor
    [PredictRequest(endpoint=..., instances=[{"prompt": prompt}],
    parameters=...)] of lines 34-38 raises, if it raises one. *)
Record World := {
  ucd_lower : str -> nat -> str;
  getenv : str -> option str;
  http_get : str -> list (str * json) -> http_reply;
  predict : str -> predict_reply;
  sympify_evalf : str -> eval_reply;
  repr_container : json -> str;
  build_request : str -> option exn;
}.

(** ** Coroutines as traced computations *)

Inductive Event :=
| Answer (text : str)
| HttpGet (url : str) (params : list (str * json))
| Predict (prompt : str)
| Evaluate (expression : str)
| BuildRequest (prompt : str).

Inductive result (A : Type) :=
| Returns (a : A)
| Raises (e : exn).
Arguments Returns {A} a.
Arguments Raises {A} e.

(** The outcome of running a coroutine to its end, with the events it
    produced, oldest first. *)
Definition M (A : Type) : Type := result A * list Event.

Definition ret {A} (a : A) : M A := (Returns a, []).

Definition raise {A} (e : exn) : M A := (Raises e, []).

Definition emit (ev : Event) : M unit := (Returns tt, [ev]).

Definition bind {A B} (m : M A) (k : A -> M B) : M B :=
  match m with
  | (Returns a, t) => let '(r, t') := k a in (r, t ++ t')
  | (Raises e, t) => (Raises e, t)
  end.

#[global] Instance M_ret : MRet M := @ret.
#[global] Instance M_bind : MBind M := λ A B k m, bind m k.

(** [try: body  except <classes matched by catches>: handler] *)
Definition try_except {A} (body : M A) (catches : exn -> bool) (handler : exn -> M A) : M A :=
  match body with
  | (Returns a, t) => (Returns a, t)
  | (Raises e, t) =>
      if catches e then let '(r, t') := handler e in (r, t ++ t')
      else (Raises e, t)
  end.

(** [[f(x) for x in xs]] *)
Fixpoint for_each {A B} (f : A -> M B) (xs : list A) : M (list B) :=
  match xs with
  | [] => ret []
  | x :: xs' => y ← f x; ys ← for_each f xs'; ret (y :: ys)
  end.

(** The replies a run sent to the chat, in the order the chat got them. *)
Fixpoint answers (t : list Event) : list str :=
  match t with
  | [] => []
  | Answer s :: t' => s :: answers t'
  | _ :: t' => answers t'
  end.

(** The calls to an external service that a run issued. *)
Definition is_network_call (ev : Event) : bool :=
  match ev with
  | HttpGet _ _ | Predict _ => true
  | Answer _ | Evaluate _ | BuildRequest _ => false
  end.

Definition network_calls (t : list Event) : list Event := filter is_network_call t.

(** ** Primitive operations of the source *)

Definition nl : str := [10].

(** [await message.answer(text)]: the text reaches the chat; a failing
    send is not part of this model. *)
Definition answer (text : str) : M unit := emit (Answer text).

(** [async with session.get(url, params=params) as resp] *)
Definition session_get (w : World) (url : str) (params : list (str * json)) : M (Z * (exn + json)) :=
  emit (HttpGet url params);;
  match http_get w url params with
  | ConnectionFails e => raise e
  | Response status body => ret (status, body)
  end.

(** [await resp.json()] *)
Definition resp_json (body : exn + json) : M json :=
  match body with
  | inl e => raise e
  | inr data => ret data
  end.

(** [os.getenv(name)] as a request parameter. *)
Definition env_param (w : World) (name : str) : json :=
  match getenv w name with
  | Some v => JStr v
  | None => JNull
  end.

(** [d.get(key, fallback)] *)
Definition dict_get (d : json) (key : str) (fallback : json) : M json :=
  match d with
  | JObj m => ret (default fallback (m !! key))
  | _ => raise (Exn AttributeError
                  (lit "'" ++ type_name d ++ lit "' object has no attribute 'get'"))
  end.

(** [d[key]] for a string key. *)
Definition subscript (d : json) (key : str) : M json :=
  match d with
  | JObj m =>
      match m !! key with
      | Some v => ret v
      | None => raise (Exn KeyError (lit "'" ++ key ++ lit "'"))
      end
  | JStr _ => raise (Exn TypeError (lit "string indices must be integers, not 'str'"))
  | JArr _ => raise (Exn TypeError (lit "list indices must be integers or slices, not str"))
  | _ => raise (Exn TypeError (lit "'" ++ type_name d ++ lit "' object is not subscriptable"))
  end.

(** The elements [for item in v] runs over. *)
Definition iterate (v : json) : M (list json) :=
  match v with
  | JArr l => ret l
  | JStr s => ret ((λ c, JStr [c]) <$> s)
  | JObj m => ret (JStr <$> (map_to_list m).*1)
  | _ => raise (Exn TypeError (lit "'" ++ type_name v ++ lit "' object is not iterable"))
  end.

(** [f"{v}"], that is [str(v)]. *)
Definition format_value (w : World) (v : json) : str :=
  match v with
  | JNull => lit "None"
  | JBool true => lit "True"
  | JBool false => lit "False"
  | JInt z => str_of_int z
  | JStr s => s
  | JArr _ | JObj _ => repr_container w v
  end.

(** [sympify(expression).evalf()] *)
Definition evalf (w : World) (expression : str) : M str :=
  emit (Evaluate expression);;
  match sympify_evalf w expression with
  | Evaluated shown => ret shown
  | EvalFails e => raise e
  end.

(** [PredictRequest(...)] of lines 32-38, built from the prompt. *)
Definition new_request (w : World) (prompt : str) : M unit :=
  emit (BuildRequest prompt);;
  match build_request w prompt with
  | Some e => raise e
  | None => ret ()
  end.

(** [await asyncio.to_thread(prediction_client.predict, request=request)]
    followed by [response.predictions]. *)
Definition call_predict (w : World) (prompt : str) : M (list (gmap str str)) :=
  emit (Predict prompt);;
  match predict w prompt with
  | PredictFails e => raise e
  | Predictions ps => ret ps
  end.

(** [predictions[0]] *)
Definition first_of {A} (l : list A) : M A :=
  match l with
  | x :: _ => ret x
  | [] => raise (Exn IndexError (lit "list index out of range"))
  end.

(** ** The fixed texts of the source *)

Definition welcome_text : str :=
  [128075] ++ lit " Hi! I'm a bot powered by Vertex AI (Gemini)." ++ nl ++ nl
  ++ lit "Try:" ++ nl
  ++ lit "- search: Python " ++ [8594] ++ lit " Google search" ++ nl
  ++ lit "- solve: 2+2*5 " ++ [8594] ++ lit " Math calculation" ++ nl
  ++ lit "- joke " ++ [8594] ++ lit " Get a random joke" ++ nl
  ++ lit "- chat: Tell me something about AI " ++ [8594] ++ lit " Gemini response".

Definition help_text : str :=
  lit "Available commands:" ++ nl ++ lit "- search:<query>" ++ nl
  ++ lit "- solve:<expression>" ++ nl ++ lit "- joke" ++ nl ++ lit "- chat:<message>".

Definition searching_text : str := [128269] ++ lit " Searching...".

Definition thinking_text : str := [129302] ++ lit " Thinking...".

Definition invalid_expression_text : str := [10060] ++ lit " Invalid mathematical expression.".

Definition prompt_required_text : str := lit "Please enter a message after 'chat:'.".

Definition unknown_text : str := lit "Unknown command. Type /help to see available options.".

Definition joke_failed_text : str := [10060] ++ lit " Failed to fetch a joke.".

Definition no_results_text : str := lit "No results found.".

Definition no_response_text : str := [129302] ++ lit " No response received.".

(** ** The handlers *)

(** [chat_with_vertex_ai] (lines 30-43) *)
Definition chat_with_vertex_ai (w : World) (prompt : str) : M str :=
  try_except
    (new_request w prompt;;
     predictions ← call_predict w prompt;
     first ← first_of predictions;
     ret (default no_response_text (first !! lit "content")))
    (λ _, true)
    (λ e, ret ([9888; 65039] ++ lit " Vertex AI error: " ++ exn_text e)).

(** The f-string of line 62 for one [item]. *)
Definition format_item (w : World) (item : json) : M str :=
  title ← subscript item (lit "title");
  snippet ← subscript item (lit "snippet");
  link ← subscript item (lit "link");
  ret (format_value w title ++ nl ++ format_value w snippet ++ nl ++ format_value w link).

Definition search_url : str := lit "https://www.googleapis.com/customsearch/v1".

(** The [params] dictionary of lines 48-53. *)
Definition search_params (w : World) (query : str) : list (str * json) :=
  [ (lit "key", env_param w (lit "GOOGLE_API_KEY"));
    (lit "cx", env_param w (lit "GOOGLE_CSE_ID"));
    (lit "q", JStr query);
    (lit "num", JInt 3) ].

(** [google_search] (lines 46-63) *)
Definition google_search (w : World) (query : str) : M str :=
  let url := search_url in
  let params := search_params w query in
  resp ← session_get w url params;
  if negb (resp.1 =? 200)%Z then
    ret (lit "Search error: HTTP " ++ str_of_int resp.1)
  else
    data ← resp_json resp.2;
    items ← dict_get data (lit "items") (JArr []);
    if negb (truthy items) then ret no_results_text
    else
      elems ← iterate items;
      results ← for_each (format_item w) elems;
      ret (join (nl ++ nl) results).

Definition joke_url : str := lit "https://official-joke-api.appspot.com/random_joke".

(** [fetch_joke] (lines 66-73) *)
Definition fetch_joke (w : World) : M str :=
  let url := joke_url in
  resp ← session_get w url [];
  if negb (resp.1 =? 200)%Z then ret joke_failed_text
  else
    data ← resp_json resp.2;
    setup ← dict_get data (lit "setup") JNull;
    punchline ← dict_get data (lit "punchline") JNull;
    ret (format_value w setup ++ nl ++ format_value w punchline).

(** [handle_message] (lines 77-126); [message_text] is [message.text]. *)
Definition handle_message (w : World) (message_text : str) : M unit :=
  let text := strip message_text in
  if bool_decide (lower (ucd_lower w) text ∈ [lit "/start"; lit "hi"; lit "hello"]) then
    answer welcome_text
  else if bool_decide (lower (ucd_lower w) text = lit "/help") then
    answer help_text
  else if startswith (lower (ucd_lower w) text) (lit "search:") then
    let query := strip (slice_from 7 text) in
    answer searching_text;;
    result ← google_search w query;
    answer result
  else if startswith (lower (ucd_lower w) text) (lit "solve:") then
    let expression := strip (slice_from 6 text) in
    try_except
      (result ← evalf w expression;
       answer (lit "Result: " ++ result))
      is_SympifyError
      (λ _, answer invalid_expression_text)
  else if bool_decide (lower (ucd_lower w) text = lit "joke") then
    joke ← fetch_joke w;
    answer joke
  else if startswith (lower (ucd_lower w) text) (lit "chat:") then
    let prompt := strip (slice_from 5 text) in
    if bool_decide (prompt = []) then
      answer prompt_required_text
    else
      answer thinking_text;;
      response ← chat_with_vertex_ai w prompt;
      answer response
  else
    answer unknown_text.

(** ** The command read off the branch that [handle_message] takes *)

Inductive Command :=
| Greeting
| Help
| Search (query : str)
| Solve (expression : str)
| Joke
| Chat (prompt : str)
| Unknown (rawText : str).

(** The tests of lines 80, 91, 95, 102, 111 and 116, in the order of the
    source, with the payload computed on lines 96, 103 and 117. *)
Definition classify (w : World) (message_text : str) : Command :=
  let text := strip message_text in
  if bool_decide (lower (ucd_lower w) text ∈ [lit "/start"; lit "hi"; lit "hello"]) then
    Greeting
  else if bool_decide (lower (ucd_lower w) text = lit "/help") then
    Help
  else if startswith (lower (ucd_lower w) text) (lit "search:") then
    Search (strip (slice_from 7 text))
  else if startswith (lower (ucd_lower w) text) (lit "solve:") then
    Solve (strip (slice_from 6 text))
  else if bool_decide (lower (ucd_lower w) text = lit "joke") then
    Joke
  else if startswith (lower (ucd_lower w) text) (lit "chat:") then
    Chat (strip (slice_from 5 text))
  else
    Unknown message_text.

(** The body of each branch of [handle_message]. *)
Definition dispatch (w : World) (c : Command) : M unit :=
  match c with
  | Greeting => answer welcome_text
  | Help => answer help_text
  | Search query =>
      answer searching_text;;
      result ← google_search w query;
      answer result
  | Solve expression =>
      try_except
        (result ← evalf w expression;
         answer (lit "Result: " ++ result))
        is_SympifyError
        (λ _, answer invalid_expression_text)
  | Joke =>
      joke ← fetch_joke w;
      answer joke
  | Chat prompt =>
      if bool_decide (prompt = []) then
        answer prompt_required_text
      else
        answer thinking_text;;
        response ← chat_with_vertex_ai w prompt;
        answer response
  | Unknown _ => answer unknown_text
  end.

(** ** The classifier as the specification words it

    Section 4.1: seven rules in a fixed priority order, each comparing the
    trimmed text, or a prefix of it, without regard to case; the first
    rule that matches decides. *)
Module Spec.

Definition equals_ci (w : World) (text literal : str) : bool :=
  bool_decide (lower (ucd_lower w) text = literal).

Definition starts_ci (w : World) (text prefix : str) : bool :=
  startswith (lower (ucd_lower w) text) prefix.

(** "remainder after the prefix, trimmed" *)
Definition remainder (prefix text : str) : str :=
  strip (drop (length prefix) text).

Definition rule : Type := str -> option Command.

Definition rule_greeting (w : World) : rule := λ t,
  if equals_ci w t (lit "/start") || equals_ci w t (lit "hi") || equals_ci w t (lit "hello")
  then Some Greeting else None.

Definition rule_help (w : World) : rule := λ t,
  if equals_ci w t (lit "/help") then Some Help else None.

Definition rule_search (w : World) : rule := λ t,
  if starts_ci w t (lit "search:") then Some (Search (remainder (lit "search:") t)) else None.

Definition rule_solve (w : World) : rule := λ t,
  if starts_ci w t (lit "solve:") then Some (Solve (remainder (lit "solve:") t)) else None.

Definition rule_joke (w : World) : rule := λ t,
  if equals_ci w t (lit "joke") then Some Joke else None.

Definition rule_chat (w : World) : rule := λ t,
  if starts_ci w t (lit "chat:") then Some (Chat (remainder (lit "chat:") t)) else None.

Definition rule_unknown (raw : str) : rule := λ _, Some (Unknown raw).

Definition rules (w : World) (raw : str) : list rule :=
  [ rule_greeting w; rule_help w; rule_search w; rule_solve w;
    rule_joke w; rule_chat w; rule_unknown raw ].

Fixpoint first_match (rs : list rule) (t : str) : option Command :=
  match rs with
  | [] => None
  | r :: rs' =>
      match r t with
      | Some c => Some c
      | None => first_match rs' t
      end
  end.

Definition classify_spec (w : World) (raw : str) : option Command :=
  first_match (rules w raw) (strip raw).

End Spec.

(** What the rest of the Unicode case table is relied on for, where a
    statement needs it: a character outside ASCII lowers to at least one
    character, none of them ASCII (the two exceptions are written out in
    [lower_at]). *)
Definition ucd_keeps_out_of_ascii (ucd : str → nat → str) : Prop :=
  ∀ s i c, s !! i = Some c → 128 ≤ c →
           ucd s i ≠ [] ∧ Forall (λ d, 128 ≤ d) (ucd s i).

(** ** Worlds to run the definitions in *)

(** A case table that leaves every character outside ASCII as it is. *)
Definition plain_ucd : str -> nat -> str :=
  λ s i, match s !! i with Some c => [c] | None => [] end.

(** A stand-in for [sympy] on three kinds of input: an arithmetic
    expression evaluates, a list literal parses to a Python list (which has
    no [evalf]), anything else does not parse. *)
Definition sample_sympify (expression : str) : eval_reply :=
  if bool_decide (expression = lit "2+2*5") then
    Evaluated (lit "12.0000000000000")
  else if bool_decide (expression = lit "[1,2]") then
    EvalFails (Exn AttributeError (lit "'list' object has no attribute 'evalf'"))
  else
    EvalFails (Exn SympifyError (lit "could not parse")).

Definition sample_world (reply : http_reply) (answer_ai : predict_reply) : World :=
  {| ucd_lower := plain_ucd;
     getenv := λ _, None;
     http_get := λ _ _, reply;
     predict := λ _, answer_ai;
     sympify_evalf := sample_sympify;
     repr_container := λ _, lit "<container>";
     build_request := λ _, None |}.

Definition one_result : json :=
  JObj {[ lit "items" :=
            JArr [ JObj (<[ lit "title" := JStr (lit "T") ]>
                         (<[ lit "snippet" := JStr (lit "S") ]>
                          {[ lit "link" := JStr (lit "L") ]})) ] ]}.

(** A search result without its [snippet]. *)
Definition result_without_snippet : json :=
  JObj {[ lit "items" :=
            JArr [ JObj (<[ lit "title" := JStr (lit "T") ]>
                         {[ lit "link" := JStr (lit "L") ]}) ] ]}.

Definition full_joke : json :=
  JObj (<[ lit "setup" := JStr (lit "a") ]> {[ lit "punchline" := JStr (lit "b") ]}).

(** A joke without its [setup]. *)
Definition joke_without_setup : json :=
  JObj {[ lit "punchline" := JStr (lit "b") ]}.

Definition hello_ai : predict_reply :=
  Predictions [ {[ lit "content" := lit "hello" ]} ].

Definition world_ok : World := sample_world (Response 200 (inr one_result)) hello_ai.

(** ** Notions for stating what the handlers do *)

(** The events of one call of [chat_with_vertex_ai]: the request is
    built, and the prediction call follows when that succeeded. *)
Definition chat_events (w : World) (prompt : str) : list Event :=
  BuildRequest prompt ::
  match build_request w prompt with
  | None => [Predict prompt]
  | Some _ => []
  end.

(** [q] is the payload that the run [t] handed over: the query of the
    search request, the expression given to the evaluator, or the prompt
    the prediction request was built from. *)
Definition handed_over (w : World) (t : list Event) (q : str) : Prop :=
  HttpGet search_url (search_params w q) ∈ t ∨ Evaluate q ∈ t ∨ BuildRequest q ∈ t.

(** A text made of whitespace only (the empty text included). *)
Definition all_space (s : str) : bool := forallb is_space s.

(** The three keys line 62 reads from a result item, in its order. *)
Definition item_fields : list str := [lit "title"; lit "snippet"; lit "link"].

(** An item that line 62 can format: a dict with the three keys. *)
Definition item_complete (item : json) : bool :=
  match item with
  | JObj m => forallb (λ k, bool_decide (is_Some (m !! k))) item_fields
  | _ => false
  end.

(** The text of one such item: its three values, one per line. *)
Definition item_block (w : World) (item : json) : str :=
  match item with
  | JObj m => join nl ((λ k, format_value w (default JNull (m !! k))) <$> item_fields)
  | _ => []
  end.


(** A world whose case table turns every character outside ASCII into
    the word "joke". *)
Definition scrambling_world : World :=
  {| ucd_lower := λ _ _, lit "joke";
     getenv := λ _, None;
     http_get := λ _ _, ConnectionFails (Exn OtherException []);
     predict := λ _, Predictions [];
     sympify_evalf := sample_sympify;
     repr_container := λ _, [];
     build_request := λ _, None |}.

(** A world in which the request of lines 34-38 cannot be built. *)
Definition broken_request_world : World :=
  {| ucd_lower := plain_ucd;
     getenv := λ _, None;
     http_get := λ _ _, Response 200 (inr one_result);
     predict := λ _, hello_ai;
     sympify_evalf := sample_sympify;
     repr_container := λ _, lit "<container>";
     build_request := λ _, Some (Exn TypeError (lit "bad instances")) |}.

(** A world whose model answers with an empty text. *)
Definition silent_ai_world : World :=
  sample_world (Response 200 (inr one_result))
    (Predictions [ {[ lit "content" := [] ]} ]).

(** * Properties *)

Example strip_demo : strip (lit "  search:  python  ") = lit "search:  python".
Proof. reflexivity. Qed.

Example lower_demo ucd : lower ucd (lit "CHAT: Hi") = lit "chat: hi".
Proof. reflexivity. Qed.

Example int_demo : str_of_int 403 = lit "403" /\ str_of_int (-5) = lit "-5".
Proof. split; reflexivity. Qed.

Example lower_kelvin ucd : lower ucd [106; 111; 8490; 101] = lit "joke".
Proof. reflexivity. Qed.

Example search_one_item :
  google_search world_ok (lit "python")
  = (Returns (lit "T" ++ nl ++ lit "S" ++ nl ++ lit "L"),
     [HttpGet search_url (search_params world_ok (lit "python"))]).
Proof. reflexivity. Qed.

Example search_forbidden :
  (google_search (sample_world (Response 403 (inr JNull)) hello_ai) (lit "python")).1
  = Returns (lit "Search error: HTTP 403").
Proof. reflexivity. Qed.

Example joke_both_fields :
  (fetch_joke (sample_world (Response 200 (inr full_joke)) hello_ai)).1
  = Returns (lit "a" ++ nl ++ lit "b").
Proof. reflexivity. Qed.

Example joke_server_error :
  (fetch_joke (sample_world (Response 500 (inl (Exn OtherException []))) hello_ai)).1
  = Returns joke_failed_text.
Proof. reflexivity. Qed.

Example solve_arithmetic :
  handle_message world_ok (lit "solve: 2+2*5")
  = (Returns (), [Evaluate (lit "2+2*5"); Answer (lit "Result: 12.0000000000000")]).
Proof. reflexivity. Qed.

Example unknown_text_reply :
  handle_message world_ok (lit "xyzzy") = (Returns (), [Answer unknown_text]).
Proof. reflexivity. Qed.

(** ** Strings *)

Lemma startswith_spec (s p : str) :
  startswith s p = true ↔ ∃ r, s = p ++ r.
Proof.
  revert s. induction p as [|a p IH]; intros s; simpl.
  - split; [intros _; by exists s | done].
  - destruct s as [|b s].
    + split; [done | intros [r Hr]; discriminate Hr].
    + rewrite andb_true_iff, N.eqb_eq, IH. split.
      * intros [-> [r ->]]. by exists r.
      * intros [r Hr]. injection Hr as -> ->. eauto.
Qed.

Lemma lstrip_suffix (s : str) : ∃ a, s = a ++ lstrip s.
Proof.
  induction s as [|c s [a IH]]; simpl.
  - by exists [].
  - destruct (is_space c).
    + exists (c :: a). simpl. by f_equal.
    + by exists [].
Qed.

Lemma rstrip_prefix (s : str) : ∃ b, s = rstrip s ++ b.
Proof.
  unfold rstrip. destruct (lstrip_suffix (reverse s)) as [a Ha].
  exists (reverse a).
  rewrite <- reverse_app, <- Ha. by rewrite reverse_involutive.
Qed.

(** [strip] only removes characters at the two ends. *)
Lemma strip_infix (s : str) : ∃ a b, s = a ++ strip s ++ b.
Proof.
  unfold strip. destruct (lstrip_suffix s) as [a Ha].
  destruct (rstrip_prefix (lstrip s)) as [b Hb].
  exists a, b. by rewrite <- Hb.
Qed.

Lemma concat_imap_ascii (f : nat → N → str) (p : str) :
  (∀ i c, c < 128 → f i c = [ascii_lower c]) →
  Forall (λ c, c < 128) p →
  concat (imap f p) = ascii_lower <$> p.
Proof.
  intros Hf Hp. revert f Hf.
  induction Hp as [|c p Hc Hp IH]; intros f Hf; simpl; [done|].
  rewrite (Hf 0%nat c Hc). simpl. f_equal.
  apply IH. intros i d Hd. by apply Hf.
Qed.

(** Lowering a text that begins with ASCII characters lowers these one by
    one, whatever follows them. *)
Lemma lower_ascii_prefix (ucd : str → nat → str) (p r : str) :
  Forall (λ c, c < 128) p →
  ∃ rest, lower ucd (p ++ r) = (ascii_lower <$> p) ++ rest.
Proof.
  intros Hp. unfold lower. rewrite imap_app, concat_app.
  eexists. f_equal. apply concat_imap_ascii; [|done].
  intros i c Hc. unfold lower_at.
  by apply N.ltb_lt in Hc as ->.
Qed.

Lemma typed_prefix_aux (f : nat → N → str) (t pre : str) :
  (∀ i c, t !! i = Some c →
          (c < 128 ∧ f i c = [ascii_lower c])
          ∨ (∃ d rest, f i c = d :: rest ∧ (d = 105 ∨ d = 107 ∨ 128 ≤ d))) →
  Forall (λ c, c < 128 ∧ c ≠ 105 ∧ c ≠ 107) pre →
  startswith (concat (imap f t)) pre = true →
  ∃ p r, t = p ++ r ∧ Forall (λ c, c < 128) p ∧ ascii_lower <$> p = pre.
Proof.
  intros Hf Hpre. revert t f Hf.
  induction Hpre as [|a pre (Ha & Hi & Hk) Hpre IH]; intros t f Hf Hs.
  - exists [], t. by repeat split.
  - destruct t as [|c t]; [discriminate Hs|].
    simpl in Hs.
    destruct (Hf 0%nat c eq_refl) as [[Hc Hfc]|(d & rest & Hfc & Hd)].
    + rewrite Hfc in Hs. simpl in Hs.
      apply andb_true_iff in Hs as [Hac Hs]. apply N.eqb_eq in Hac.
      destruct (IH t (f ∘ S)) as (p & r & -> & Hp & Hlow); [|done|].
      { intros i c' Hi'. apply (Hf (S i) c' Hi'). }
      exists (c :: p), r. repeat split; [by constructor|].
      by rewrite fmap_cons, Hlow, Hac.
    + rewrite Hfc in Hs. simpl in Hs.
      apply andb_true_iff in Hs as [Hac _]. apply N.eqb_eq in Hac. lia.
Qed.

(** A lowered text can only begin with an ASCII literal free of "i" and
    "k" when the text itself begins with that literal in some mix of
    cases: the characters that matched are the first characters typed. *)
Lemma matched_prefix_is_typed (ucd : str → nat → str) (t pre : str) :
  ucd_keeps_out_of_ascii ucd →
  Forall (λ c, c < 128 ∧ c ≠ 105 ∧ c ≠ 107) pre →
  startswith (lower ucd t) pre = true →
  ∃ p r, t = p ++ r ∧ Forall (λ c, c < 128) p ∧ ascii_lower <$> p = pre.
Proof.
  intros Hucd Hpre Hs. apply (typed_prefix_aux (lower_at ucd t) t pre); [|done..].
  intros i c Hi. unfold lower_at.
  destruct (N.ltb_spec c 128) as [Hc|Hc]; [by left|right].
  destruct (N.eqb_spec c 8490); [by exists 107, []; auto|].
  destruct (N.eqb_spec c 304); [by exists 105, [775]; auto|].
  destruct (Hucd t i c Hi Hc) as [Hne Hall].
  destruct (ucd t i) as [|d rest]; [done|].
  exists d, rest. split; [done|]. apply Forall_cons in Hall as [Hd _]. auto.
Qed.

Lemma remainder_after_typed_prefix (ucd : str → nat → str) (t pre : str) :
  ucd_keeps_out_of_ascii ucd →
  Forall (λ c, c < 128 ∧ c ≠ 105 ∧ c ≠ 107) pre →
  startswith (lower ucd t) pre = true →
  ∃ p r, t = p ++ r ∧ Forall (λ c, c < 128) p ∧ ascii_lower <$> p = pre
         ∧ drop (length pre) t = r.
Proof.
  intros Hucd Hpre Hs.
  destruct (matched_prefix_is_typed ucd t pre Hucd Hpre Hs) as (p & r & -> & Hp & Hlow).
  exists p, r. repeat split; [done..|].
  by rewrite <- Hlow, length_fmap, drop_app_length.
Qed.

Lemma plain_ucd_ok : ucd_keeps_out_of_ascii plain_ucd.
Proof.
  intros s i c Hi Hc. unfold plain_ucd. rewrite Hi.
  split; [done|]. by repeat constructor.
Qed.

Lemma prefixes_free_of_i_and_k :
  Forall (Forall (λ c, c < 128 ∧ c ≠ 105 ∧ c ≠ 107))
    [lit "search:"; lit "solve:"; lit "chat:"].
Proof. repeat constructor; done. Qed.

(** ** The branch structure *)

(** [handle_message] does what the branch named by [classify] does. *)
Lemma handle_message_dispatch (w : World) (raw : str) :
  handle_message w raw = dispatch w (classify w raw).
Proof.
  unfold handle_message, classify.
  repeat (case_match; [reflexivity|]). reflexivity.
Qed.

(** The membership test of line 80 is a disjunction of three equalities. *)
Lemma greeting_test (l : str) :
  bool_decide (l ∈ [lit "/start"; lit "hi"; lit "hello"])
  = bool_decide (l = lit "/start") || bool_decide (l = lit "hi")
    || bool_decide (l = lit "hello").
Proof.
  apply eq_true_iff_eq.
  rewrite !orb_true_iff, !bool_decide_eq_true, !elem_of_cons, elem_of_nil.
  tauto.
Qed.

(** Settles the tests of the if-chain once the lowered text is known to
    begin with a given literal. *)
Ltac settle_tests :=
  rewrite ?greeting_test;
  repeat match goal with
  | |- context [bool_decide (?a = ?b)] =>
      rewrite (bool_decide_eq_false_2 (a = b))
        by (let E := fresh in intros E; vm_compute in E; discriminate E)
  end;
  reflexivity.

Lemma classify_search (w : World) (raw : str) :
  startswith (lower (ucd_lower w) (strip raw)) (lit "search:") = true →
  classify w raw = Search (strip (drop 7 (strip raw))).
Proof.
  intros [r Hr]%startswith_spec. unfold classify, slice_from.
  rewrite Hr. settle_tests.
Qed.

Lemma classify_solve (w : World) (raw : str) :
  startswith (lower (ucd_lower w) (strip raw)) (lit "solve:") = true →
  classify w raw = Solve (strip (drop 6 (strip raw))).
Proof.
  intros [r Hr]%startswith_spec. unfold classify, slice_from.
  rewrite Hr. settle_tests.
Qed.

Lemma classify_chat (w : World) (raw : str) :
  startswith (lower (ucd_lower w) (strip raw)) (lit "chat:") = true →
  classify w raw = Chat (strip (drop 5 (strip raw))).
Proof.
  intros [r Hr]%startswith_spec. unfold classify, slice_from.
  rewrite Hr. settle_tests.
Qed.

(** The other direction: only the branch of a prefix builds its command. *)
Lemma classify_search_inv (w : World) (raw q : str) :
  classify w raw = Search q →
  startswith (lower (ucd_lower w) (strip raw)) (lit "search:") = true
  ∧ q = strip (drop 7 (strip raw)).
Proof.
  unfold classify, slice_from. intros H.
  repeat (case_match; try discriminate H).
  injection H as <-. done.
Qed.

Lemma classify_solve_inv (w : World) (raw q : str) :
  classify w raw = Solve q →
  startswith (lower (ucd_lower w) (strip raw)) (lit "solve:") = true
  ∧ q = strip (drop 6 (strip raw)).
Proof.
  unfold classify, slice_from. intros H.
  repeat (case_match; try discriminate H).
  injection H as <-. done.
Qed.

Lemma classify_chat_inv (w : World) (raw q : str) :
  classify w raw = Chat q →
  startswith (lower (ucd_lower w) (strip raw)) (lit "chat:") = true
  ∧ q = strip (drop 5 (strip raw)).
Proof.
  unfold classify, slice_from. intros H.
  repeat (case_match; try discriminate H).
  injection H as <-. done.
Qed.

(** ** Classification *)

(** C1.  For every world and every message text, going through the seven
    rules of the specification in their order on the trimmed text yields a
    command, namely the one whose branch [handle_message] runs; the run of
    [handle_message] is the run of that branch; and the command depends on
    nothing but the text and the case table, so repeating the call while
    the outside services answer differently gives the same command with
    the same payload. *)
Theorem classifier_first_match (w : World) (raw : str) :
  Spec.classify_spec w raw = Some (classify w raw)
  ∧ handle_message w raw = dispatch w (classify w raw)
  ∧ (∀ w', ucd_lower w' = ucd_lower w → classify w' raw = classify w raw).
Proof.
  split; [|split].
  - unfold Spec.classify_spec, Spec.rules, Spec.first_match,
      Spec.rule_greeting, Spec.rule_help, Spec.rule_search, Spec.rule_solve,
      Spec.rule_joke, Spec.rule_chat, Spec.rule_unknown,
      Spec.equals_ci, Spec.starts_ci, Spec.remainder, classify, slice_from.
    rewrite greeting_test. cbv beta iota.
    repeat (match goal with
            | |- context [if ?c then _ else _] =>
                lazymatch c with
                | true => fail
                | false => fail
                | _ => destruct c
                end
            end; cbv beta iota; try reflexivity).
  - apply handle_message_dispatch.
  - intros w' Hw. unfold classify. by rewrite Hw.
Qed.

Lemma classifier_first_match_witness :
  ucd_lower (sample_world (ConnectionFails (Exn OtherException [])) (Predictions []))
  = ucd_lower world_ok
  ∧ Spec.classify_spec world_ok (lit "  Search: Rocq ") = Some (Search (lit "Rocq"))
  ∧ classify (sample_world (ConnectionFails (Exn OtherException [])) (Predictions []))
      (lit "  Search: Rocq ")
    = classify world_ok (lit "  Search: Rocq ").
Proof.
  split; [reflexivity|].
  destruct (classifier_first_match world_ok (lit "  Search: Rocq ")) as (H1 & _ & H3).
  split.
  - rewrite H1. reflexivity.
  - apply H3. reflexivity.
Defined.

(** ** Runs of the handlers *)

Lemma bind_run {A B} (m : M A) (k : A → M B) :
  m ≫= k =
  match m with
  | (Returns a, t) => ((k a).1, t ++ (k a).2)
  | (Raises e, t) => (Raises e, t)
  end.
Proof.
  destruct m as [[a|e] t]; [|reflexivity].
  unfold mbind, M_bind, bind. by destruct (k a).
Qed.

Lemma format_item_silent (w : World) (item : json) : (format_item w item).2 = [].
Proof.
  unfold format_item, subscript.
  destruct item as [| | | | |m]; try reflexivity.
  destruct (m !! lit "title"); [|reflexivity].
  destruct (m !! lit "snippet"); [|reflexivity].
  destruct (m !! lit "link"); reflexivity.
Qed.

Lemma for_each_silent {A B} (f : A → M B) (xs : list A) :
  (∀ x, (f x).2 = []) → (for_each f xs).2 = [].
Proof.
  intros Hf. induction xs as [|x xs IH]; [reflexivity|].
  simpl. rewrite bind_run. specialize (Hf x).
  destruct (f x) as [[y|e] t]; simpl in *; subst t; [|reflexivity].
  rewrite bind_run. destruct (for_each f xs) as [[ys|e] t]; simpl in *; by subst t.
Qed.

Lemma iterate_silent (v : json) : (iterate v).2 = [].
Proof. destruct v; reflexivity. Qed.

(** A search issues exactly one request and nothing else. *)
Lemma google_search_trace (w : World) (query : str) :
  (google_search w query).2 = [HttpGet search_url (search_params w query)].
Proof.
  unfold google_search, session_get. rewrite !bind_run. simpl.
  destruct (http_get w search_url (search_params w query)) as [e|status body];
    [reflexivity|].
  simpl. destruct (negb (status =? 200)%Z); [reflexivity|].
  rewrite bind_run. destruct body as [e|data]; [reflexivity|]. simpl.
  rewrite bind_run.
  destruct data as [| | | | |m]; try reflexivity. simpl.
  destruct (negb (truthy (default (JArr []) (m !! lit "items")))); [reflexivity|].
  rewrite bind_run.
  pose proof (iterate_silent (default (JArr []) (m !! lit "items"))) as Hit.
  destruct (iterate (default (JArr []) (m !! lit "items"))) as [[elems|e] t];
    simpl in Hit; subst t; [|reflexivity].
  simpl. rewrite bind_run.
  pose proof (for_each_silent (format_item w) elems (format_item_silent w)) as Hs.
  destruct (for_each (format_item w) elems) as [[rs|e] t]; simpl in *; by subst t.
Qed.

(** The joke handler issues exactly one request and nothing else. *)
Lemma fetch_joke_trace (w : World) : (fetch_joke w).2 = [HttpGet joke_url []].
Proof.
  unfold fetch_joke, session_get. rewrite !bind_run. simpl.
  destruct (http_get w joke_url []) as [e|status body]; [reflexivity|].
  simpl. destruct (negb (status =? 200)%Z); [reflexivity|].
  rewrite bind_run. destruct body as [e|data]; [reflexivity|]. simpl.
  destruct data; reflexivity.
Qed.

(** The AI handler never raises: a text comes back whether the request
    could be built or not and whatever the client does. *)
Lemma chat_with_vertex_ai_returns (w : World) (prompt : str) :
  ∃ r, chat_with_vertex_ai w prompt = (Returns r, chat_events w prompt).
Proof.
  unfold chat_with_vertex_ai, new_request, call_predict, chat_events.
  rewrite !bind_run. simpl.
  destruct (build_request w prompt) as [e|]; simpl; [eauto|].
  destruct (predict w prompt) as [e|[|first rest]]; simpl; eauto.
Qed.

(** ** Runs of the branches *)

Lemma dispatch_search (w : World) (q : str) :
  dispatch w (Search q) =
  match (google_search w q).1 with
  | Returns r =>
      (Returns (), [Answer searching_text; HttpGet search_url (search_params w q); Answer r])
  | Raises e =>
      (Raises e, [Answer searching_text; HttpGet search_url (search_params w q)])
  end.
Proof.
  unfold dispatch, answer, emit. rewrite !bind_run. simpl.
  pose proof (google_search_trace w q) as Ht.
  destruct (google_search w q) as [[r|e] t]; simpl in *; by subst t.
Qed.

Lemma dispatch_solve (w : World) (expr : str) :
  dispatch w (Solve expr) =
  match sympify_evalf w expr with
  | Evaluated shown => (Returns (), [Evaluate expr; Answer (lit "Result: " ++ shown)])
  | EvalFails e =>
      if is_SympifyError e
      then (Returns (), [Evaluate expr; Answer invalid_expression_text])
      else (Raises e, [Evaluate expr])
  end.
Proof.
  unfold dispatch, evalf, answer, emit. rewrite !bind_run. simpl.
  destruct (sympify_evalf w expr) as [shown|e]; simpl; [reflexivity|].
  by destruct (is_SympifyError e).
Qed.

Lemma dispatch_joke (w : World) :
  dispatch w Joke =
  match (fetch_joke w).1 with
  | Returns joke => (Returns (), [HttpGet joke_url []; Answer joke])
  | Raises e => (Raises e, [HttpGet joke_url []])
  end.
Proof.
  unfold dispatch, answer, emit. rewrite !bind_run.
  pose proof (fetch_joke_trace w) as Ht.
  destruct (fetch_joke w) as [[r|e] t]; simpl in *; by subst t.
Qed.

Lemma dispatch_chat (w : World) (p : str) :
  p ≠ [] →
  ∃ r, chat_with_vertex_ai w p = (Returns r, chat_events w p)
       ∧ dispatch w (Chat p)
         = (Returns (), [Answer thinking_text] ++ chat_events w p ++ [Answer r]).
Proof.
  intros Hp. destruct (chat_with_vertex_ai_returns w p) as [r Hr].
  exists r. split; [done|].
  unfold dispatch. rewrite bool_decide_eq_false_2 by done.
  unfold answer, emit. rewrite !bind_run, Hr. reflexivity.
Qed.

Lemma answers_app (t t' : list Event) : answers (t ++ t') = answers t ++ answers t'.
Proof.
  induction t as [|ev t IH]; [done|].
  destruct ev; simpl; by rewrite IH.
Qed.

Lemma chat_events_silent (w : World) (p : str) : answers (chat_events w p) = [].
Proof. unfold chat_events. by destruct (build_request w p). Qed.

Lemma dispatch_chat_empty (w : World) :
  dispatch w (Chat []) = (Returns (), [Answer prompt_required_text]).
Proof. reflexivity. Qed.

(** ** What a run contains *)

(** Every run is a fixed opening, decided by the command, followed only
    by replies. *)
Lemma run_shape (w : World) (raw : str) :
  ∃ replies,
    (handle_message w raw).2 =
      match classify w raw with
      | Search q => [Answer searching_text; HttpGet search_url (search_params w q)]
      | Solve expr => [Evaluate expr]
      | Joke => [HttpGet joke_url []]
      | Chat p => if bool_decide (p = []) then [] else Answer thinking_text :: chat_events w p
      | Greeting | Help | Unknown _ => []
      end ++ (Answer <$> replies).
Proof.
  rewrite handle_message_dispatch.
  destruct (classify w raw) as [| |q|expr| |p|t].
  - by exists [welcome_text].
  - by exists [help_text].
  - rewrite dispatch_search.
    destruct (google_search w q).1 as [r|e]; [by exists [r] | by exists []].
  - rewrite dispatch_solve.
    destruct (sympify_evalf w expr) as [shown|e]; [by eexists [_]|].
    destruct (is_SympifyError e); [by eexists [_] | by exists []].
  - rewrite dispatch_joke.
    destruct (fetch_joke w).1 as [r|e]; [by exists [r] | by exists []].
  - case_bool_decide as Hp.
    + subst p. by exists [prompt_required_text].
    + destruct (dispatch_chat w p Hp) as (r & _ & ->). by exists [r].
  - by exists [unknown_text].
Qed.

Lemma not_a_reply (ev : Event) (replies : list str) :
  (∀ s, ev ≠ Answer s) → ev ∈ Answer <$> replies → False.
Proof.
  intros Hev (s & -> & _)%list_elem_of_fmap. by apply (Hev s).
Qed.

(** Splits a membership in an explicit list into its cases. *)
Ltac members H :=
  repeat match type of H with
  | _ ∈ _ :: _ => apply elem_of_cons in H as [H|H]; [try discriminate H|]
  | _ ∈ [] => apply elem_of_nil in H; destruct H
  end.

(** From an event that is not a reply and occurs in a run to the command
    of that run. *)
Ltac opening_cases w raw H :=
  let replies := fresh "replies" in
  destruct (run_shape w raw) as [replies ->];
  rewrite elem_of_app; intros [H|H]; [|by apply not_a_reply in H];
  destruct (classify w raw);
  try case_bool_decide; unfold chat_events in H;
  try match type of H with
      | context [build_request ?w' ?p'] => destruct (build_request w' p') eqn:?
      end;
  members H; simplify_eq.

Lemma evaluate_in_run (w : World) (raw x : str) :
  Evaluate x ∈ (handle_message w raw).2 ↔ classify w raw = Solve x.
Proof.
  split.
  - opening_cases w raw H; done.
  - intros Hc. destruct (run_shape w raw) as [replies ->]. rewrite Hc.
    apply list_elem_of_here.
Qed.

Lemma build_in_run (w : World) (raw p : str) :
  BuildRequest p ∈ (handle_message w raw).2 ↔ classify w raw = Chat p ∧ p ≠ [].
Proof.
  split.
  - opening_cases w raw H; done.
  - intros [Hc Hp]. destruct (run_shape w raw) as [replies ->]. rewrite Hc.
    rewrite bool_decide_eq_false_2 by done.
    apply list_elem_of_further, list_elem_of_here.
Qed.

Lemma predict_in_run (w : World) (raw p : str) :
  Predict p ∈ (handle_message w raw).2 ↔
  classify w raw = Chat p ∧ p ≠ [] ∧ build_request w p = None.
Proof.
  split.
  - opening_cases w raw H; done.
  - intros (Hc & Hp & Hb). destruct (run_shape w raw) as [replies ->]. rewrite Hc.
    rewrite bool_decide_eq_false_2 by done. unfold chat_events. rewrite Hb.
    do 2 apply list_elem_of_further. apply list_elem_of_here.
Qed.

Lemma request_in_run (w : World) (raw url : str) (ps : list (str * json)) :
  HttpGet url ps ∈ (handle_message w raw).2 ↔
  (∃ q, classify w raw = Search q ∧ url = search_url ∧ ps = search_params w q)
  ∨ (classify w raw = Joke ∧ url = joke_url ∧ ps = []).
Proof.
  split.
  - opening_cases w raw H; eauto.
  - intros [(q & Hc & -> & ->)|(Hc & -> & ->)];
      destruct (run_shape w raw) as [replies ->]; rewrite Hc.
    + apply list_elem_of_further, list_elem_of_here.
    + apply list_elem_of_here.
Qed.

Lemma search_params_inj (w : World) (q q' : str) :
  search_params w q = search_params w q' → q = q'.
Proof. unfold search_params. by intros [= ->]. Qed.

Lemma search_request_in_run (w : World) (raw q : str) :
  HttpGet search_url (search_params w q) ∈ (handle_message w raw).2 ↔
  classify w raw = Search q.
Proof.
  rewrite request_in_run. split.
  - intros [(q' & Hc & _ & Hps)|(_ & Hurl & _)].
    + by apply search_params_inj in Hps as ->.
    + vm_compute in Hurl. discriminate Hurl.
  - intros Hc. left. by exists q.
Qed.

(** The payload a run hands over is the payload of its command. *)
Lemma handed_over_iff (w : World) (raw q : str) :
  handed_over w (handle_message w raw).2 q ↔
  classify w raw = Search q ∨ classify w raw = Solve q
  ∨ (classify w raw = Chat q ∧ q ≠ []).
Proof.
  unfold handed_over.
  by rewrite search_request_in_run, evaluate_in_run, build_in_run.
Qed.

(** ** The payload handed to the handlers *)

(** C5.  What [handle_message] hands over is the rest of the trimmed text
    after the prefix, trimmed again.  Its run contains the search request
    for the query [q] exactly when the lowered trimmed text starts with
    "search:" and [q] is the trimmed text without its first
    [length "search:"] characters, trimmed; it contains the evaluation of
    [q] exactly when the same holds for "solve:"; it builds the prediction
    request from [q] exactly when the same holds for "chat:" and [q] is
    not empty.  On "search:  python " the request made is the one for
    "python".  With a Unicode case table that keeps characters outside
    ASCII outside ASCII, the characters cut off are the prefix as it was
    typed, so what is handed over is the trimmed rest after the matched
    prefix. *)
Theorem prefix_payload_extraction (w : World) (raw q : str) :
  (HttpGet search_url (search_params w q) ∈ (handle_message w raw).2 ↔
     Spec.starts_ci w (strip raw) (lit "search:") = true
     ∧ q = strip (drop (length (lit "search:")) (strip raw)))
  ∧ (Evaluate q ∈ (handle_message w raw).2 ↔
       Spec.starts_ci w (strip raw) (lit "solve:") = true
       ∧ q = strip (drop (length (lit "solve:")) (strip raw)))
  ∧ (BuildRequest q ∈ (handle_message w raw).2 ↔
       Spec.starts_ci w (strip raw) (lit "chat:") = true
       ∧ q = strip (drop (length (lit "chat:")) (strip raw))
       ∧ q ≠ [])
  ∧ (handle_message w (lit "search:  python ")).2 !! 1%nat
    = Some (HttpGet search_url (search_params w (lit "python")))
  ∧ (ucd_keeps_out_of_ascii (ucd_lower w) →
     handed_over w (handle_message w raw).2 q →
     ∃ p r, strip raw = p ++ r ∧ Forall (λ c, c < 128) p
            ∧ ascii_lower <$> p ∈ [lit "search:"; lit "solve:"; lit "chat:"]
            ∧ q = strip r).
Proof.
  unfold Spec.starts_ci.
  split; [|split; [|split; [|split]]].
  - rewrite search_request_in_run. split; [apply classify_search_inv|].
    intros [H ->]. by apply classify_search.
  - rewrite evaluate_in_run. split; [apply classify_solve_inv|].
    intros [H ->]. by apply classify_solve.
  - rewrite build_in_run. split.
    + intros [[Hs ->]%classify_chat_inv Hne]. done.
    + intros (H & -> & Hne). split; [by apply classify_chat|done].
  - destruct (run_shape w (lit "search:  python ")) as [replies ->].
    reflexivity.
  - intros Hucd Hq. apply handed_over_iff in Hq.
    pose proof prefixes_free_of_i_and_k as Hfree.
    apply Forall_cons in Hfree as [F1 Hfree].
    apply Forall_cons in Hfree as [F2 Hfree].
    apply Forall_cons in Hfree as [F3 _].
    destruct Hq as [Hc|[Hc|[Hc _]]].
    + apply classify_search_inv in Hc as [Hs ->].
      destruct (remainder_after_typed_prefix _ _ _ Hucd F1 Hs)
        as (p & r & Ht & Hp & Hlow & Hdrop).
      exists p, r. change (length (lit "search:")) with 7%nat in Hdrop.
      rewrite Hdrop, Hlow. repeat split; [done..|].
      apply list_elem_of_here.
    + apply classify_solve_inv in Hc as [Hs ->].
      destruct (remainder_after_typed_prefix _ _ _ Hucd F2 Hs)
        as (p & r & Ht & Hp & Hlow & Hdrop).
      exists p, r. change (length (lit "solve:")) with 6%nat in Hdrop.
      rewrite Hdrop, Hlow. repeat split; [done..|].
      apply list_elem_of_further, list_elem_of_here.
    + apply classify_chat_inv in Hc as [Hs ->].
      destruct (remainder_after_typed_prefix _ _ _ Hucd F3 Hs)
        as (p & r & Ht & Hp & Hlow & Hdrop).
      exists p, r. change (length (lit "chat:")) with 5%nat in Hdrop.
      rewrite Hdrop, Hlow. repeat split; [done..|].
      do 2 apply list_elem_of_further. apply list_elem_of_here.
Qed.

Lemma prefix_payload_extraction_witness :
  ucd_keeps_out_of_ascii (ucd_lower world_ok)
  ∧ Evaluate (lit "2+2*5") ∈ (handle_message world_ok (lit " Solve:   2+2*5  ")).2
  ∧ ∃ p r, strip (lit " Solve:   2+2*5  ") = p ++ r ∧ Forall (λ c, c < 128) p
           ∧ ascii_lower <$> p ∈ [lit "search:"; lit "solve:"; lit "chat:"]
           ∧ lit "2+2*5" = strip r.
Proof.
  pose proof (prefix_payload_extraction world_ok (lit " Solve:   2+2*5  ") (lit "2+2*5"))
    as (_ & Hsolve & _ & _ & Htyped).
  assert (He : Evaluate (lit "2+2*5")
               ∈ (handle_message world_ok (lit " Solve:   2+2*5  ")).2).
  { apply Hsolve. split; reflexivity. }
  split; [exact plain_ucd_ok|]. split; [exact He|].
  apply (Htyped plain_ucd_ok). right. left. exact He.
Defined.

(** C9.  When the trimmed text is [p ++ r] and [p] is one of the three
    prefixes written in any mix of upper and lower case, what
    [handle_message] hands over is [r] trimmed, in the case the user
    typed: the search request is made for it, the evaluator is called on
    it, the prediction request is built from it (when it is not empty),
    and nothing else is handed over.  Whatever a run hands over occurs
    character for character inside the original message. *)
Theorem payload_keeps_original_case (w : World) (raw p r : str) :
  strip raw = p ++ r →
  Forall (λ c, c < 128) p →
  (ascii_lower <$> p = lit "search:" →
     HttpGet search_url (search_params w (strip r)) ∈ (handle_message w raw).2)
  ∧ (ascii_lower <$> p = lit "solve:" →
       Evaluate (strip r) ∈ (handle_message w raw).2)
  ∧ (ascii_lower <$> p = lit "chat:" → strip r ≠ [] →
       BuildRequest (strip r) ∈ (handle_message w raw).2)
  ∧ (ascii_lower <$> p ∈ [lit "search:"; lit "solve:"; lit "chat:"] →
       ∀ q, handed_over w (handle_message w raw).2 q → q = strip r)
  ∧ (∀ q, handed_over w (handle_message w raw).2 q → ∃ a b, raw = a ++ q ++ b).
Proof.
  intros Ht Hp.
  destruct (lower_ascii_prefix (ucd_lower w) p r Hp) as [rest Hlow].
  assert (Hstart : startswith (lower (ucd_lower w) (strip raw)) (ascii_lower <$> p) = true).
  { apply startswith_spec. exists rest. by rewrite Ht. }
  assert (Hdrop : drop (length p) (strip raw) = r).
  { rewrite Ht. by rewrite drop_app_length. }
  assert (Hsearch : ascii_lower <$> p = lit "search:" → classify w raw = Search (strip r)).
  { intros E. rewrite E in Hstart. rewrite (classify_search _ _ Hstart).
    apply (f_equal length) in E. rewrite length_fmap in E.
    change (length (lit "search:")) with 7%nat in E. by rewrite <- E, Hdrop. }
  assert (Hsolve : ascii_lower <$> p = lit "solve:" → classify w raw = Solve (strip r)).
  { intros E. rewrite E in Hstart. rewrite (classify_solve _ _ Hstart).
    apply (f_equal length) in E. rewrite length_fmap in E.
    change (length (lit "solve:")) with 6%nat in E. by rewrite <- E, Hdrop. }
  assert (Hchat : ascii_lower <$> p = lit "chat:" → classify w raw = Chat (strip r)).
  { intros E. rewrite E in Hstart. rewrite (classify_chat _ _ Hstart).
    apply (f_equal length) in E. rewrite length_fmap in E.
    change (length (lit "chat:")) with 5%nat in E. by rewrite <- E, Hdrop. }
  split; [|split; [|split; [|split]]].
  - intros E. by apply search_request_in_run, Hsearch.
  - intros E. by apply evaluate_in_run, Hsolve.
  - intros E Hne. apply build_in_run. split; [by apply Hchat|done].
  - intros Hin q Hq%handed_over_iff. members Hin.
    + rewrite (Hsearch Hin) in Hq. destruct Hq as [Hq|[Hq|[Hq _]]]; by simplify_eq.
    + rewrite (Hsolve Hin) in Hq. destruct Hq as [Hq|[Hq|[Hq _]]]; by simplify_eq.
    + rewrite (Hchat Hin) in Hq. destruct Hq as [Hq|[Hq|[Hq _]]]; by simplify_eq.
  - intros q Hq%handed_over_iff.
    destruct (strip_infix raw) as (a & b & Hraw).
    assert (∃ n, q = strip (drop n (strip raw))) as [n ->].
    { destruct Hq as [Hq|[Hq|[Hq _]]].
      - apply classify_search_inv in Hq as [_ ->]. by exists 7%nat.
      - apply classify_solve_inv in Hq as [_ ->]. by exists 6%nat.
      - apply classify_chat_inv in Hq as [_ ->]. by exists 5%nat. }
    destruct (strip_infix (drop n (strip raw))) as (a' & b' & Hr).
    exists (a ++ take n (strip raw) ++ a'), (b' ++ b).
    rewrite Hraw at 1. rewrite <- (take_drop n (strip raw)) at 1. rewrite Hr at 1.
    by rewrite <- !(assoc_L (++)).
Qed.

Lemma payload_keeps_original_case_witness :
  (strip (lit "CHAT: Hello World") = lit "CHAT:" ++ lit " Hello World"
   ∧ Forall (λ c, c < 128) (lit "CHAT:")
   ∧ ascii_lower <$> lit "CHAT:" = lit "chat:")
  ∧ BuildRequest (lit "Hello World") ∈ (handle_message world_ok (lit "CHAT: Hello World")).2
  ∧ ¬ handed_over world_ok (handle_message world_ok (lit "CHAT: Hello World")).2
        (lit "hello world").
Proof.
  assert (H1 : strip (lit "CHAT: Hello World") = lit "CHAT:" ++ lit " Hello World")
    by reflexivity.
  assert (H2 : Forall (λ c, c < 128) (lit "CHAT:"))
    by (repeat constructor).
  assert (H3 : ascii_lower <$> lit "CHAT:" = lit "chat:") by reflexivity.
  assert (H4 : strip (lit " Hello World") ≠ []) by discriminate.
  destruct (payload_keeps_original_case world_ok _ _ _ H1 H2)
    as (_ & _ & Hchat & Honly & _).
  split; [by repeat split|]. split.
  - exact (Hchat H3 H4).
  - intros Hq. apply Honly in Hq; [discriminate Hq|].
    rewrite H3. do 2 apply list_elem_of_further. apply list_elem_of_here.
Defined.

(** ** Order and number of replies *)

(** C4.  For a message classified as Search, the run begins with the
    "Searching..." reply, then the one request, and the result reply, when
    the search handler returns one, comes after both as a message of its
    own.  For a message classified as Chat with a non-empty prompt the run
    is: the "Thinking..." reply, the events of the AI handler (the request
    is built, and the prediction call follows when that succeeded), the
    reply with the handler's text; so the chat receives exactly the two
    replies, the acknowledgement first. *)
Theorem ack_precedes_result (w : World) (raw payload : str) :
  (classify w raw = Search payload →
     (handle_message w raw).2 =
       [Answer searching_text; HttpGet search_url (search_params w payload)]
       ++ match (google_search w payload).1 with
          | Returns r => [Answer r]
          | Raises _ => []
          end)
  ∧ (classify w raw = Chat payload → payload ≠ [] →
       ∃ r, chat_with_vertex_ai w payload = (Returns r, chat_events w payload)
            ∧ handle_message w raw =
                (Returns (),
                 [Answer thinking_text] ++ chat_events w payload ++ [Answer r])
            ∧ answers (handle_message w raw).2 = [thinking_text; r]).
Proof.
  rewrite handle_message_dispatch. split.
  - intros ->. rewrite dispatch_search.
    by destruct (google_search w payload).1.
  - intros -> Hp. destruct (dispatch_chat w payload Hp) as (r & Hr & Hd).
    exists r. split; [done|]. split; [done|].
    rewrite Hd. cbn [snd]. rewrite !answers_app, chat_events_silent. reflexivity.
Qed.

Lemma ack_precedes_result_witness :
  (classify world_ok (lit "search: rocq") = Search (lit "rocq")
   ∧ answers (handle_message world_ok (lit "search: rocq")).2
     = [searching_text; lit "T" ++ nl ++ lit "S" ++ nl ++ lit "L"])
  ∧ (classify broken_request_world (lit "chat: hi") = Chat (lit "hi")
     ∧ lit "hi" ≠ []
     ∧ ∃ r, handle_message broken_request_world (lit "chat: hi")
            = (Returns (), [Answer thinking_text; BuildRequest (lit "hi"); Answer r])).
Proof.
  assert (H : classify world_ok (lit "search: rocq") = Search (lit "rocq"))
    by reflexivity.
  assert (Hc : classify broken_request_world (lit "chat: hi") = Chat (lit "hi"))
    by reflexivity.
  assert (Hp : lit "hi" ≠ []) by discriminate.
  split.
  - split; [exact H|].
    rewrite (proj1 (ack_precedes_result world_ok (lit "search: rocq") (lit "rocq")) H).
    reflexivity.
  - split; [exact Hc|]. split; [exact Hp|].
    destruct (proj2 (ack_precedes_result broken_request_world (lit "chat: hi") (lit "hi"))
                Hc Hp) as (r & _ & Hrun & _).
    exists r. exact Hrun.
Defined.

(** C7.  A message classified as Chat with an empty prompt gets the
    prompt-required reply and nothing else happens: the run ends normally
    with that single event, so no prediction call or other request is
    issued and no "Thinking..." reply is sent. *)
Theorem empty_chat_prompt_stops (w : World) (raw : str) :
  classify w raw = Chat [] →
  handle_message w raw = (Returns (), [Answer prompt_required_text])
  ∧ network_calls (handle_message w raw).2 = []
  ∧ Answer thinking_text ∉ (handle_message w raw).2.
Proof.
  intros H. rewrite handle_message_dispatch, H, dispatch_chat_empty.
  split; [done|]. split; [done|].
  simpl. intros [E|E]%elem_of_cons; [discriminate E|].
  by apply elem_of_nil in E.
Qed.

Lemma empty_chat_prompt_stops_witness :
  classify world_ok (lit " Chat:   ") = Chat []
  ∧ handle_message world_ok (lit " Chat:   ") = (Returns (), [Answer prompt_required_text]).
Proof.
  assert (H : classify world_ok (lit " Chat:   ") = Chat []) by reflexivity.
  split; [exact H|].
  exact (proj1 (empty_chat_prompt_stops world_ok (lit " Chat:   ") H)).
Defined.

(** C8.  The number of replies of a run, for every world and text: one for
    Greeting, Help, Unknown and Chat with an empty prompt; two for Chat
    with a prompt; for Search two when the search handler returns and one
    when it raises; for Solve one when the evaluator returns or raises
    SympifyError and none when it raises anything else; for Joke one when
    the joke handler returns and none when it raises.  In the sample world
    the text "solve: [1,2]" gets no reply at all. *)
Theorem reply_count (w : World) (raw : str) :
  length (answers (handle_message w raw).2) =
    match classify w raw with
    | Greeting | Help | Unknown _ => 1
    | Search q =>
        match (google_search w q).1 with Returns _ => 2 | Raises _ => 1 end
    | Solve expr =>
        match sympify_evalf w expr with
        | Evaluated _ => 1
        | EvalFails e => if is_SympifyError e then 1 else 0
        end
    | Joke =>
        match (fetch_joke w).1 with Returns _ => 1 | Raises _ => 0 end
    | Chat p => if bool_decide (p = []) then 1 else 2
    end%nat
  ∧ answers (handle_message world_ok (lit "solve: [1,2]")).2 = [].
Proof.
  split; [|reflexivity].
  rewrite handle_message_dispatch.
  destruct (classify w raw) as [| |q|expr| |p|t]; try reflexivity.
  - rewrite dispatch_search. by destruct (google_search w q).1.
  - rewrite dispatch_solve.
    destruct (sympify_evalf w expr) as [shown|e]; [reflexivity|].
    by destruct (is_SympifyError e).
  - rewrite dispatch_joke. by destruct (fetch_joke w).1.
  - case_bool_decide as Hp.
    + subst p. reflexivity.
    + destruct (dispatch_chat w p Hp) as (r & _ & ->). cbn [snd].
      by rewrite !answers_app, chat_events_silent.
Qed.

(** ** The Solve branch *)

(** C2.  The run of a message classified as Solve, in every world: the
    evaluator is called once; its result is sent as "Result: ..."; a
    SympifyError is answered with the invalid-expression text; any other
    exception leaves [handle_message] with no reply sent. *)
Theorem solve_error_propagation (w : World) (raw expr : str) :
  classify w raw = Solve expr →
  handle_message w raw =
    match sympify_evalf w expr with
    | Evaluated shown => (Returns (), [Evaluate expr; Answer (lit "Result: " ++ shown)])
    | EvalFails e =>
        if is_SympifyError e
        then (Returns (), [Evaluate expr; Answer invalid_expression_text])
        else (Raises e, [Evaluate expr])
    end.
Proof.
  intros H. by rewrite handle_message_dispatch, H, dispatch_solve.
Qed.

Lemma solve_error_propagation_witness :
  classify world_ok (lit "solve: [1,2]") = Solve (lit "[1,2]")
  ∧ handle_message world_ok (lit "solve: [1,2]")
    = (Raises (Exn AttributeError (lit "'list' object has no attribute 'evalf'")),
       [Evaluate (lit "[1,2]")]).
Proof.
  assert (H : classify world_ok (lit "solve: [1,2]") = Solve (lit "[1,2]"))
    by reflexivity.
  split; [exact H|].
  rewrite (solve_error_propagation world_ok _ _ H). reflexivity.
Defined.

(** C10.  A message classified as Solve with an empty expression still
    goes to the evaluator: the first event of the run is its call on the
    empty string.  In a world where the evaluator answers the empty string
    with a SympifyError, the run ends normally with the invalid-expression
    text as its only reply.  The text "solve:" is such a message. *)
Theorem empty_solve_reaches_evaluator (w : World) (raw : str) :
  classify w raw = Solve [] →
  (handle_message w raw).2 !! 0%nat = Some (Evaluate [])
  ∧ (∀ e, sympify_evalf w [] = EvalFails e → is_SympifyError e = true →
       handle_message w raw = (Returns (), [Evaluate []; Answer invalid_expression_text]))
  ∧ classify w (lit "solve:") = Solve [].
Proof.
  intros H. rewrite handle_message_dispatch, H, dispatch_solve.
  split; [|split; [|reflexivity]].
  - destruct (sympify_evalf w []) as [shown|e]; [reflexivity|].
    by destruct (is_SympifyError e).
  - by intros e -> ->.
Qed.

Lemma empty_solve_reaches_evaluator_witness :
  (classify world_ok (lit "solve:") = Solve []
   ∧ sympify_evalf world_ok [] = EvalFails (Exn SympifyError (lit "could not parse")))
  ∧ handle_message world_ok (lit "solve:")
    = (Returns (), [Evaluate []; Answer invalid_expression_text]).
Proof.
  assert (H : classify world_ok (lit "solve:") = Solve []) by reflexivity.
  assert (He : sympify_evalf world_ok [] = EvalFails (Exn SympifyError (lit "could not parse")))
    by reflexivity.
  split; [by split|].
  exact (proj1 (proj2 (empty_solve_reaches_evaluator world_ok (lit "solve:") H))
           _ He eq_refl).
Defined.

(** ** The search and joke handlers *)

(** A status other than 200 is reported as text, whatever the body is. *)
Lemma google_search_status (w : World) (q : str) (status : Z) (body : exn + json) :
  http_get w search_url (search_params w q) = Response status body →
  status ≠ 200%Z →
  (google_search w q).1 = Returns (lit "Search error: HTTP " ++ str_of_int status).
Proof.
  intros Hg Hs. unfold google_search, session_get. rewrite !bind_run, Hg. simpl.
  apply Z.eqb_neq in Hs as ->. reflexivity.
Qed.

(** C3.  What the search handler does on each kind of upstream failure: a
    status other than 200 comes back as the text "Search error: HTTP
    <status>"; but an exception of the connection leaves [google_search]
    as it is, so does an exception of [resp.json()], and a result item
    without its "snippet" field raises KeyError. *)
Theorem search_failures_propagate (w : World) (q : str) :
  (∀ status body,
     http_get w search_url (search_params w q) = Response status body →
     status ≠ 200%Z →
     (google_search w q).1 = Returns (lit "Search error: HTTP " ++ str_of_int status))
  ∧ (∀ e, http_get w search_url (search_params w q) = ConnectionFails e →
          (google_search w q).1 = Raises e)
  ∧ (∀ e, http_get w search_url (search_params w q) = Response 200 (inl e) →
          (google_search w q).1 = Raises e)
  ∧ (http_get w search_url (search_params w q) = Response 200 (inr result_without_snippet) →
     (google_search w q).1 = Raises (Exn KeyError (lit "'snippet'"))).
Proof.
  split; [|split; [|split]].
  - intros status body. apply google_search_status.
  - intros e Hg. unfold google_search, session_get. by rewrite !bind_run, Hg.
  - intros e Hg. unfold google_search, session_get. by rewrite !bind_run, Hg.
  - intros Hg. unfold google_search, session_get. rewrite !bind_run, Hg.
    reflexivity.
Qed.

Lemma search_failures_propagate_witness :
  http_get (sample_world (Response 200 (inr result_without_snippet)) hello_ai)
    search_url
    (search_params (sample_world (Response 200 (inr result_without_snippet)) hello_ai)
       (lit "rocq"))
  = Response 200 (inr result_without_snippet)
  ∧ (google_search (sample_world (Response 200 (inr result_without_snippet)) hello_ai)
       (lit "rocq")).1
    = Raises (Exn KeyError (lit "'snippet'")).
Proof.
  split; [reflexivity|].
  exact (proj2 (proj2 (proj2
    (search_failures_propagate
       (sample_world (Response 200 (inr result_without_snippet)) hello_ai)
       (lit "rocq")))) eq_refl).
Defined.

(** C6.  On a 200 response whose body is a JSON object, the joke handler
    returns the two fields joined by a newline, each rendered by [str()];
    a field that is missing is rendered as the four characters "None".
    So a body with only the punchline "b" gives "None", newline, "b". *)
Theorem joke_missing_field_prints_None (w : World) (m : gmap str json) :
  http_get w joke_url [] = Response 200 (inr (JObj m)) →
  (fetch_joke w).1 =
    Returns (match m !! lit "setup" with
             | Some v => format_value w v
             | None => lit "None"
             end
             ++ nl ++
             match m !! lit "punchline" with
             | Some v => format_value w v
             | None => lit "None"
             end).
Proof.
  intros Hg. unfold fetch_joke, session_get. rewrite !bind_run, Hg. simpl.
  by destruct (m !! lit "setup"), (m !! lit "punchline").
Qed.

Lemma joke_missing_field_prints_None_witness :
  http_get (sample_world (Response 200 (inr joke_without_setup)) hello_ai) joke_url []
  = Response 200 (inr joke_without_setup)
  ∧ (fetch_joke (sample_world (Response 200 (inr joke_without_setup)) hello_ai)).1
    = Returns (lit "None" ++ nl ++ lit "b")
  ∧ lit "None" ++ nl ++ lit "b" ≠ nl ++ lit "b".
Proof.
  split; [reflexivity|]. split.
  - rewrite (joke_missing_field_prints_None
               (sample_world (Response 200 (inr joke_without_setup)) hello_ai)
               {[ lit "punchline" := JStr (lit "b") ]} eq_refl).
    reflexivity.
  - intros E. discriminate E.
Defined.

(** * Further properties of the handlers *)

(** ** Whitespace around a message *)

Lemma lstrip_all_space (a : str) : all_space a = true → lstrip a = [].
Proof.
  unfold all_space. induction a as [|c a IH]; simpl; [done|].
  intros [-> Ha]%andb_true_iff. by apply IH.
Qed.

Lemma lstrip_app_space (a s : str) : all_space a = true → lstrip (a ++ s) = lstrip s.
Proof.
  unfold all_space. induction a as [|c a IH]; simpl; [done|].
  intros [-> Ha]%andb_true_iff. by apply IH.
Qed.

Lemma all_space_reverse (a : str) : all_space (reverse a) = all_space a.
Proof.
  unfold all_space. induction a as [|c a IH]; [done|].
  rewrite reverse_cons, forallb_app, IH. simpl.
  rewrite andb_true_r. apply andb_comm.
Qed.

Lemma rstrip_app_space (s b : str) : all_space b = true → rstrip (s ++ b) = rstrip s.
Proof.
  intros Hb. unfold rstrip. rewrite reverse_app, lstrip_app_space; [done|].
  by rewrite all_space_reverse.
Qed.

Lemma rstrip_all_space (b : str) : all_space b = true → rstrip b = [].
Proof.
  intros Hb. unfold rstrip. rewrite lstrip_all_space; [done|].
  by rewrite all_space_reverse.
Qed.

Lemma strip_padding (a s b : str) :
  all_space a = true → all_space b = true → strip (a ++ s ++ b) = strip s.
Proof.
  intros Ha Hb. unfold strip. rewrite lstrip_app_space by done. clear a Ha.
  induction s as [|c s IH]; simpl.
  - by rewrite lstrip_all_space, rstrip_all_space.
  - destruct (is_space c); [done|].
    change (c :: s ++ b) with ((c :: s) ++ b). by rewrite rstrip_app_space.
Qed.

Lemma lstrip_head (s : str) (c : N) : head (lstrip s) = Some c → is_space c = false.
Proof.
  induction s as [|d s IH]; simpl; [done|].
  destruct (is_space d) eqn:Hd; [done|]. simpl. by intros [= <-].
Qed.

(** What [strip] leaves has no whitespace at either end. *)
Lemma strip_ends (s : str) (c : N) :
  head (strip s) = Some c ∨ last (strip s) = Some c → is_space c = false.
Proof.
  unfold strip. intros [H|H].
  - destruct (rstrip_prefix (lstrip s)) as [b Hb].
    apply (lstrip_head s). rewrite Hb.
    destruct (rstrip (lstrip s)); [discriminate H|done].
  - unfold rstrip in H. rewrite last_reverse in H. by apply lstrip_head in H.
Qed.

(** X1.  Whitespace before and after a message changes nothing: the run
    of [handle_message] on the padded text is the run on the text. *)
Theorem padding_is_ignored (w : World) (a raw b : str) :
  all_space a = true → all_space b = true →
  handle_message w (a ++ raw ++ b) = handle_message w raw.
Proof.
  intros Ha Hb. unfold handle_message. by rewrite strip_padding.
Qed.

Lemma padding_is_ignored_witness :
  (all_space [32; 10] = true ∧ all_space [9; 160] = true)
  ∧ handle_message world_ok ([32; 10] ++ lit "solve: 2+2*5" ++ [9; 160])
    = handle_message world_ok (lit "solve: 2+2*5").
Proof.
  split; [by split|].
  exact (padding_is_ignored world_ok [32; 10] (lit "solve: 2+2*5") [9; 160]
           eq_refl eq_refl).
Defined.

(** X2.  The query, expression or prompt that a run of [handle_message]
    hands over never begins or ends with a whitespace character. *)
Theorem payload_is_trimmed (w : World) (raw q : str) (c : N) :
  handed_over w (handle_message w raw).2 q →
  head q = Some c ∨ last q = Some c →
  is_space c = false.
Proof.
  intros [H|[H|[H _]]]%handed_over_iff Hc.
  - apply classify_search_inv in H as [_ ->]. by apply strip_ends in Hc.
  - apply classify_solve_inv in H as [_ ->]. by apply strip_ends in Hc.
  - apply classify_chat_inv in H as [_ ->]. by apply strip_ends in Hc.
Qed.

Lemma payload_is_trimmed_witness :
  (handed_over world_ok
     (handle_message world_ok (lit "search:   verified software  ")).2
     (lit "verified software")
   ∧ head (lit "verified software") = Some 118)
  ∧ is_space 118 = false.
Proof.
  assert (H : handed_over world_ok
                (handle_message world_ok (lit "search:   verified software  ")).2
                (lit "verified software")).
  { left. apply list_elem_of_further, list_elem_of_here. }
  assert (Hh : head (lit "verified software") = Some 118) by reflexivity.
  split; [by split|].
  exact (payload_is_trimmed world_ok _ _ 118 H (or_introl Hh)).
Defined.

(** X3.  An empty message, or one of whitespace only, gets the
    unknown-command reply and nothing else happens. *)
Theorem blank_message_unknown (w : World) (raw : str) :
  all_space raw = true →
  handle_message w raw = (Returns (), [Answer unknown_text]).
Proof.
  intros H. unfold handle_message, strip.
  by rewrite (lstrip_all_space raw H).
Qed.

Lemma blank_message_unknown_witness :
  all_space [32; 9; 10] = true
  ∧ handle_message world_ok [32; 9; 10] = (Returns (), [Answer unknown_text]).
Proof.
  split; [reflexivity|].
  exact (blank_message_unknown world_ok [32; 9; 10] eq_refl).
Defined.

Lemma head_mismatch_eq (d a : N) (l l' : str) :
  d ≠ a → bool_decide (d :: l = a :: l') = false.
Proof. intros Hd. apply bool_decide_eq_false_2. by intros [= E _]. Qed.

Lemma head_mismatch_start (d a : N) (l p : str) :
  d ≠ a → startswith (d :: l) (a :: p) = false.
Proof.
  intros Hd. simpl. apply andb_false_intro1. apply N.eqb_neq. congruence.
Qed.

(** X4.  Matching is anchored at the first character: when the trimmed
    text begins with an ASCII character other than "/", "h", "s", "j" and
    "c" (in either case), the message gets the unknown-command reply,
    whatever command words follow. *)
Theorem anchored_at_start (w : World) (raw rest : str) (c : N) :
  strip raw = c :: rest →
  c < 128 →
  ascii_lower c ∉ [47; 104; 115; 106; 99] →
  handle_message w raw = (Returns (), [Answer unknown_text]).
Proof.
  intros Hs Hc Hnot.
  destruct (lower_ascii_prefix (ucd_lower w) [c] rest) as [rest' Hlow].
  { by repeat constructor. }
  change ([c] ++ rest) with (c :: rest) in Hlow.
  change ((ascii_lower <$> [c]) ++ rest') with (ascii_lower c :: rest') in Hlow.
  rewrite !not_elem_of_cons in Hnot.
  destruct Hnot as (H47 & H104 & H115 & H106 & H99 & _).
  unfold handle_message. rewrite Hs, Hlow, greeting_test.
  change (lit "/start") with (47 :: lit "start").
  change (lit "hi") with (104 :: lit "i").
  change (lit "hello") with (104 :: lit "ello").
  change (lit "/help") with (47 :: lit "help").
  change (lit "search:") with (115 :: lit "earch:").
  change (lit "solve:") with (115 :: lit "olve:").
  change (lit "joke") with (106 :: lit "oke").
  change (lit "chat:") with (99 :: lit "hat:").
  rewrite !head_mismatch_eq, !head_mismatch_start by done.
  reflexivity.
Qed.

Lemma anchored_at_start_witness :
  (strip (lit " Please search: rocq") = 80 :: lit "lease search: rocq"
   ∧ 80 < 128
   ∧ ascii_lower 80 ∉ [47; 104; 115; 106; 99])
  ∧ handle_message world_ok (lit " Please search: rocq")
    = (Returns (), [Answer unknown_text]).
Proof.
  assert (H1 : strip (lit " Please search: rocq") = 80 :: lit "lease search: rocq")
    by reflexivity.
  assert (H2 : 80 < 128) by reflexivity.
  assert (H3 : ascii_lower 80 ∉ [47; 104; 115; 106; 99]).
  { rewrite !not_elem_of_cons. repeat split; try discriminate. apply not_elem_of_nil. }
  split; [by repeat split|].
  exact (anchored_at_start world_ok _ _ 80 H1 H2 H3).
Defined.

Lemma Forall_infix_ascii (a s b : str) :
  Forall (λ c, c < 128) (a ++ s ++ b) → Forall (λ c, c < 128) s.
Proof. intros H. by apply Forall_app in H as [_ [H _]%Forall_app]. Qed.

Lemma lower_ascii (ucd : str → nat → str) (t : str) :
  Forall (λ c, c < 128) t → lower ucd t = ascii_lower <$> t.
Proof.
  intros Ht. unfold lower. apply concat_imap_ascii; [|done].
  intros i c Hc. unfold lower_at. by apply N.ltb_lt in Hc as ->.
Qed.

(** X5.  For a message of ASCII characters only, the lowered text that
    the tests look at is the text with "A".."Z" replaced by "a".."z", and
    the command does not depend on the world at all. *)
Theorem ascii_message_classification (w w' : World) (raw : str) :
  Forall (λ c, c < 128) raw →
  lower (ucd_lower w) (strip raw) = ascii_lower <$> strip raw
  ∧ classify w raw = classify w' raw.
Proof.
  intros Hraw.
  assert (Ht : Forall (λ c, c < 128) (strip raw)).
  { destruct (strip_infix raw) as (a & b & E). rewrite E in Hraw.
    by apply Forall_infix_ascii in Hraw. }
  split; [by apply lower_ascii|].
  unfold classify. by rewrite !(lower_ascii _ _ Ht).
Qed.

Lemma ascii_message_classification_witness :
  Forall (λ c, c < 128) (lit "HeLLo")
  ∧ classify world_ok (lit "HeLLo") = classify scrambling_world (lit "HeLLo").
Proof.
  assert (H : Forall (λ c, c < 128) (lit "HeLLo")) by (by repeat constructor).
  split; [exact H|].
  exact (proj2 (ascii_message_classification world_ok scrambling_world (lit "HeLLo") H)).
Defined.

(** ** The tests of the if-chain *)


(** ** The search handler on a 200 response *)

Lemma bind_ret_l {A B} (a : A) (k : A → M B) : ret a ≫= k = k a.
Proof. rewrite bind_run. unfold ret. by destruct (k a). Qed.

(** The result of [google_search] once the response is a 200 with a JSON
    object as its body. *)
Lemma google_search_object (w : World) (q : str) (m : gmap str json) :
  http_get w search_url (search_params w q) = Response 200 (inr (JObj m)) →
  (google_search w q).1 =
    if negb (truthy (default (JArr []) (m !! lit "items"))) then Returns no_results_text
    else match (iterate (default (JArr []) (m !! lit "items"))).1 with
         | Returns elems =>
             match (for_each (format_item w) elems).1 with
             | Returns rs => Returns (join (nl ++ nl) rs)
             | Raises e => Raises e
             end
         | Raises e => Raises e
         end.
Proof.
  intros Hg. unfold google_search, session_get. rewrite !bind_run, Hg.
  cbn -[lit truthy iterate for_each format_item join str_of_int default lookup mbind].
  rewrite bind_run.
  cbn -[lit truthy iterate for_each format_item join str_of_int default lookup mbind].
  rewrite bind_ret_l.
  destruct (negb (truthy (default (JArr []) (m !! lit "items")))); [reflexivity|].
  rewrite bind_run.
  destruct (iterate (default (JArr []) (m !! lit "items"))) as [[elems|e] t];
    [|reflexivity].
  cbn [fst snd]. rewrite bind_run.
  by destruct (for_each (format_item w) elems) as [[rs|e] t'].
Qed.

Lemma format_item_complete (w : World) (item : json) :
  item_complete item = true →
  format_item w item = (Returns (item_block w item), []).
Proof.
  destruct item as [| | | | |m]; try discriminate.
  unfold item_complete, item_fields. cbn [forallb].
  rewrite !andb_true_iff, !bool_decide_eq_true.
  intros ([t Ht] & [s Hs] & [l Hl] & _).
  unfold format_item, subscript, item_block, item_fields.
  rewrite Ht, Hs, Hl. cbn [fmap list_fmap]. by rewrite Ht, Hs, Hl.
Qed.

Lemma format_item_incomplete (w : World) (item : json) :
  item_complete item = false →
  ∃ e, format_item w item = (Raises e, [])
       ∧ (exn_cls e = KeyError ∨ exn_cls e = TypeError).
Proof.
  unfold format_item, subscript.
  destruct item as [| | | | |m]; try (intros _; eexists; split; [reflexivity|by right]).
  unfold item_complete, item_fields. cbn [forallb].
  destruct (m !! lit "title") as [t|] eqn:Ht;
    [|intros _; eexists; split; [reflexivity|by left]].
  destruct (m !! lit "snippet") as [s|] eqn:Hs;
    [|intros _; eexists; split; [reflexivity|by left]].
  destruct (m !! lit "link") as [l|] eqn:Hl;
    [|intros _; eexists; split; [reflexivity|by left]].
  intros H. exfalso. revert H.
  rewrite !bool_decide_eq_true_2 by eauto. discriminate.
Qed.

Lemma for_each_complete (w : World) (items : list json) :
  forallb item_complete items = true →
  for_each (format_item w) items = (Returns (item_block w <$> items), []).
Proof.
  induction items as [|item items IH]; [done|].
  cbn [forallb]. intros [Hi Hr]%andb_true_iff.
  cbn [for_each]. rewrite bind_run, (format_item_complete w item Hi).
  cbn [fst snd]. rewrite bind_run, (IH Hr). reflexivity.
Qed.

Lemma for_each_incomplete (w : World) (items : list json) :
  forallb item_complete items = false →
  ∃ e, for_each (format_item w) items = (Raises e, [])
       ∧ (exn_cls e = KeyError ∨ exn_cls e = TypeError).
Proof.
  induction items as [|item items IH]; [done|].
  cbn [forallb for_each]. rewrite bind_run.
  destruct (item_complete item) eqn:Hi.
  - rewrite (format_item_complete w item Hi). cbn [andb fst snd].
    intros Hr. destruct (IH Hr) as (e & He & Hcls).
    exists e. rewrite bind_run, He. by split.
  - intros _. destruct (format_item_incomplete w item Hi) as (e & He & Hcls).
    exists e. rewrite He. by split.
Qed.

(** X7.  On a 200 response whose JSON object has no "items", or has an
    empty list, null, false, 0, an empty string or an empty object there,
    the search handler returns "No results found." after its one
    request. *)
Theorem search_no_results (w : World) (q : str) (m : gmap str json) :
  http_get w search_url (search_params w q) = Response 200 (inr (JObj m)) →
  (m !! lit "items" = None
   ∨ ∃ v, m !! lit "items" = Some v
          ∧ v ∈ [JArr []; JNull; JBool false; JInt 0; JStr []; JObj ∅]) →
  google_search w q
  = (Returns no_results_text, [HttpGet search_url (search_params w q)]).
Proof.
  intros Hg Hitems.
  pose proof (google_search_object w q m Hg) as H1.
  pose proof (google_search_trace w q) as H2.
  destruct (google_search w q) as [r t]. cbn [fst snd] in *. subst t.
  f_equal. rewrite H1.
  destruct Hitems as [->|(v & -> & Hv)]; [reflexivity|].
  rewrite !elem_of_cons, elem_of_nil in Hv.
  destruct Hv as [->|[->|[->|[->|[->|[->|[]]]]]]]; reflexivity.
Qed.

Lemma search_no_results_witness :
  http_get (sample_world (Response 200 (inr (JObj {[ lit "items" := JNull ]}))) hello_ai)
    search_url
    (search_params
       (sample_world (Response 200 (inr (JObj {[ lit "items" := JNull ]}))) hello_ai) [])
  = Response 200 (inr (JObj {[ lit "items" := JNull ]}))
  ∧ (google_search
       (sample_world (Response 200 (inr (JObj {[ lit "items" := JNull ]}))) hello_ai) []).1
    = Returns no_results_text.
Proof.
  split; [reflexivity|].
  rewrite (search_no_results
             (sample_world (Response 200 (inr (JObj {[ lit "items" := JNull ]}))) hello_ai)
             [] {[ lit "items" := JNull ]} eq_refl).
  - reflexivity.
  - right. exists JNull. split; [reflexivity|].
    apply list_elem_of_further, list_elem_of_here.
Defined.

(** X8.  On a 200 response whose "items" is a non-empty list, the search
    handler returns the blocks "title, snippet, link" of the items, one
    value per line and a blank line between items, when every item is a
    dict with the three keys; as soon as one item is not, it raises
    KeyError or TypeError and returns nothing. *)
Theorem search_formats_items (w : World) (q : str) (m : gmap str json) (items : list json) :
  http_get w search_url (search_params w q) = Response 200 (inr (JObj m)) →
  m !! lit "items" = Some (JArr items) →
  items ≠ [] →
  if forallb item_complete items
  then (google_search w q).1 = Returns (join (nl ++ nl) (item_block w <$> items))
  else ∃ e, (google_search w q).1 = Raises e
            ∧ (exn_cls e = KeyError ∨ exn_cls e = TypeError).
Proof.
  intros Hg Hi Hne. rewrite (google_search_object w q m Hg), Hi.
  cbn [default from_option id truthy iterate ret fst].
  rewrite bool_decide_eq_false_2 by done. cbn [negb].
  destruct (forallb item_complete items) eqn:Hall.
  - by rewrite (for_each_complete w items Hall).
  - destruct (for_each_incomplete w items Hall) as (e & -> & Hcls).
    by exists e.
Qed.

Lemma search_formats_items_witness :
  (google_search world_ok (lit "rocq")).1
  = Returns (lit "T" ++ nl ++ lit "S" ++ nl ++ lit "L").
Proof.
  exact (search_formats_items world_ok (lit "rocq")
           {[ lit "items" :=
                JArr [ JObj (<[ lit "title" := JStr (lit "T") ]>
                             (<[ lit "snippet" := JStr (lit "S") ]>
                              {[ lit "link" := JStr (lit "L") ]})) ] ]}
           [ JObj (<[ lit "title" := JStr (lit "T") ]>
                   (<[ lit "snippet" := JStr (lit "S") ]>
                    {[ lit "link" := JStr (lit "L") ]})) ]
           eq_refl eq_refl (λ E, eq_ind [] (λ l, match l with [] => True | _ => False end)
                                   I _ (eq_sym E))).
Defined.

(** X9.  On a 200 response whose body is JSON but not an object, the
    search handler raises AttributeError (the body has no [get]); and when
    "items" holds something true that is not a list (a number, [true], a
    non-empty string or object), it raises TypeError. *)
Theorem search_unexpected_shape (w : World) (q : str) (data : json) :
  http_get w search_url (search_params w q) = Response 200 (inr data) →
  match data with
  | JObj m =>
      ∀ v, m !! lit "items" = Some v → truthy v = true → (∀ l, v ≠ JArr l) →
           ∃ e, (google_search w q).1 = Raises e ∧ exn_cls e = TypeError
  | _ => ∃ e, (google_search w q).1 = Raises e ∧ exn_cls e = AttributeError
  end.
Proof.
  intros Hg.
  destruct data as [| | | | |m];
    try (unfold google_search, session_get; rewrite !bind_run, Hg;
         eexists; split; reflexivity).
  intros v Hv Ht Hl. rewrite (google_search_object w q m Hg), Hv.
  cbn [default from_option id]. rewrite Ht. cbn [negb].
  destruct v as [|b|z|s|l|m']; try (eexists; split; reflexivity).
  - destruct s as [|c s]; [discriminate Ht|]. eexists; split; reflexivity.
  - by destruct (Hl l).
  - cbn [iterate ret fst].
    destruct (map_to_list m') as [|[k x] kvs] eqn:Hm.
    + apply map_to_list_empty_iff in Hm. subst m'. discriminate Ht.
    + eexists; split; reflexivity.
Qed.

Lemma search_unexpected_shape_witness :
  ∃ e, (google_search (sample_world (Response 200 (inr (JArr []))) hello_ai) (lit "x")).1
       = Raises e
       ∧ exn_cls e = AttributeError.
Proof.
  exact (search_unexpected_shape
           (sample_world (Response 200 (inr (JArr []))) hello_ai) (lit "x") (JArr [])
           eq_refl).
Defined.

(** X10.  Whatever the search service does, one call of the search
    handler issues exactly one request, to the fixed address, carrying the
    query unchanged and a result count of 3: no second attempt is made. *)
Theorem search_single_request (w : World) (q : str) :
  ∃ params,
    (google_search w q).2 = [HttpGet search_url params]
    ∧ params.*1 = [lit "key"; lit "cx"; lit "q"; lit "num"]
    ∧ (lit "q", JStr q) ∈ params
    ∧ (lit "num", JInt 3) ∈ params.
Proof.
  exists (search_params w q). split; [apply google_search_trace|].
  unfold search_params. split; [reflexivity|].
  split; repeat (first [apply list_elem_of_here | apply list_elem_of_further]).
Qed.

(** ** The joke handler *)

(** X11.  For every status other than 200, whatever the body, the joke
    handler returns the same fixed failure text after its one request. *)
Theorem joke_failure_text (w : World) (status : Z) (body : exn + json) :
  http_get w joke_url [] = Response status body →
  status ≠ 200%Z →
  fetch_joke w = (Returns joke_failed_text, [HttpGet joke_url []]).
Proof.
  intros Hg Hs. unfold fetch_joke, session_get. rewrite !bind_run, Hg.
  simpl. apply Z.eqb_neq in Hs as ->. reflexivity.
Qed.

Lemma joke_failure_text_witness :
  (http_get (sample_world (Response 503 (inr JNull)) hello_ai) joke_url []
   = Response 503 (inr JNull)
   ∧ 503%Z ≠ 200%Z)
  ∧ fetch_joke (sample_world (Response 503 (inr JNull)) hello_ai)
    = (Returns joke_failed_text, [HttpGet joke_url []]).
Proof.
  assert (H : 503%Z ≠ 200%Z) by discriminate.
  split; [by split|].
  exact (joke_failure_text (sample_world (Response 503 (inr JNull)) hello_ai)
           503 (inr JNull) eq_refl H).
Defined.

(** X12.  The joke handler raises exactly in these cases: the request
    itself fails, or the status is 200 and either the body cannot be
    decoded or it decodes to something that is not an object. *)
Theorem joke_raises_iff (w : World) :
  (∃ e, (fetch_joke w).1 = Raises e) ↔
  match http_get w joke_url [] with
  | ConnectionFails _ => True
  | Response status (inl _) => status = 200%Z
  | Response status (inr (JObj _)) => False
  | Response status (inr _) => status = 200%Z
  end.
Proof.
  unfold fetch_joke, session_get. rewrite !bind_run.
  destruct (http_get w joke_url []) as [e|status body].
  - split; [done|]. intros _. by exists e.
  - simpl.
    destruct (Z.eqb_spec status 200) as [->|Hs].
    + destruct body as [e|data].
      * split; [done|]. intros _. by exists e.
      * destruct data; (split; [try done; by intros [e [=]] | try done; intros _; eexists; reflexivity]).
    + simpl. destruct body as [e|data].
      * split; [by intros [e' [=]] | done].
      * destruct data; (split; [by intros [e' [=]] | done]).
Qed.

(** ** The AI handler *)


(** ** Whole runs of [handle_message] *)

(** X14.  One message causes at most one call to an outside service:
    exactly one for Search and for Joke, one for Chat with a prompt when
    the prediction request could be built and none when it could not,
    none for every other message. *)
Theorem network_call_count (w : World) (raw : str) :
  length (network_calls (handle_message w raw).2) =
    match classify w raw with
    | Search _ | Joke => 1
    | Chat p =>
        if bool_decide (p = []) then 0
        else match build_request w p with None => 1 | Some _ => 0 end
    | Greeting | Help | Solve _ | Unknown _ => 0
    end%nat.
Proof.
  rewrite handle_message_dispatch.
  destruct (classify w raw) as [| |q|expr| |p|t]; try reflexivity.
  - rewrite dispatch_search. by destruct (google_search w q).1.
  - rewrite dispatch_solve.
    destruct (sympify_evalf w expr) as [shown|e]; [reflexivity|].
    by destruct (is_SympifyError e).
  - rewrite dispatch_joke. by destruct (fetch_joke w).1.
  - case_bool_decide as Hp.
    + subst p. reflexivity.
    + destruct (dispatch_chat w p Hp) as (r & _ & ->).
      unfold chat_events. by destruct (build_request w p).
Qed.

(** X16.  Each outside party is contacted by its own command only, with
    the payload of that command: the prediction call happens exactly for
    Chat with a non-empty prompt whose request could be built, on that
    prompt; the evaluator runs exactly for Solve, on its expression; a
    request goes out exactly for Search (to the search address with the
    query) and for Joke (to the joke address without parameters). *)
Theorem services_called_by_their_command (w : World) (raw : str) :
  (∀ p, Predict p ∈ (handle_message w raw).2 ↔
        classify w raw = Chat p ∧ p ≠ [] ∧ build_request w p = None)
  ∧ (∀ x, Evaluate x ∈ (handle_message w raw).2 ↔ classify w raw = Solve x)
  ∧ (∀ url ps, HttpGet url ps ∈ (handle_message w raw).2 ↔
       (∃ q, classify w raw = Search q ∧ url = search_url ∧ ps = search_params w q)
       ∨ (classify w raw = Joke ∧ url = joke_url ∧ ps = [])).
Proof.
  split; [|split].
  - intros p. apply predict_in_run.
  - intros x. apply evaluate_in_run.
  - intros url ps. apply request_in_run.
Qed.

(** ** The status code in the search error text *)

Lemma lit_inj (s s' : string) : lit s = lit s' → s = s'.
Proof.
  unfold lit. intros H.
  rewrite <- (string_of_list_ascii_of_string s), <- (string_of_list_ascii_of_string s').
  f_equal. revert H.
  generalize (list_ascii_of_string s) (list_ascii_of_string s'). clear s s'.
  induction l as [|a l IH]; intros [|b l'] H; try discriminate H; [done|].
  rewrite !fmap_cons in H. injection H as Hab Hl. f_equal; [|by apply IH].
  by rewrite <- (ascii_N_embedding a), <- (ascii_N_embedding b), Hab.
Qed.

Lemma str_of_int_inj (z z' : Z) : str_of_int z = str_of_int z' → z = z'.
Proof.
  unfold str_of_int. intros H%lit_inj.
  assert (Hnn : ∀ n, Z.to_int n ≠ Decimal.Pos Decimal.Nil
                     ∧ Z.to_int n ≠ Decimal.Neg Decimal.Nil).
  { intros [|p|p]; simpl; split; try discriminate;
      intros [= E]; by apply DecimalPos.Unsigned.to_uint_nonnil in E. }
  apply DecimalZ.to_int_inj.
  destruct (Hnn z) as [Hz1 Hz2], (Hnn z') as [Hz1' Hz2'].
  pose proof (NilZero.isi _ Hz1 Hz2) as E. rewrite H in E.
  rewrite (NilZero.isi _ Hz1' Hz2') in E. by injection E.
Qed.

(** X17.  The search error text tells the status codes apart: two failed
    searches that report the same text got the same status. *)
Theorem search_error_names_status
    (w w' : World) (q q' : str) (status status' : Z) (body body' : exn + json) :
  http_get w search_url (search_params w q) = Response status body →
  http_get w' search_url (search_params w' q') = Response status' body' →
  status ≠ 200%Z → status' ≠ 200%Z →
  (google_search w q).1 = (google_search w' q').1 →
  status = status'.
Proof.
  intros Hg Hg' Hs Hs'.
  rewrite (google_search_status w q status body Hg Hs).
  rewrite (google_search_status w' q' status' body' Hg' Hs').
  intros [= E]. by apply str_of_int_inj in E.
Qed.

Lemma search_error_names_status_witness :
  (google_search (sample_world (Response 403 (inr JNull)) hello_ai) (lit "a")).1
  = (google_search (sample_world (Response 403 (inl (Exn OtherException []))) hello_ai)
       (lit "b")).1
  ∧ 403%Z = 403%Z.
Proof.
  assert (H : 403%Z ≠ 200%Z) by discriminate.
  assert (E : (google_search (sample_world (Response 403 (inr JNull)) hello_ai) (lit "a")).1
              = (google_search
                   (sample_world (Response 403 (inl (Exn OtherException []))) hello_ai)
                   (lit "b")).1) by reflexivity.
  split; [exact E|].
  exact (search_error_names_status
           (sample_world (Response 403 (inr JNull)) hello_ai)
           (sample_world (Response 403 (inl (Exn OtherException []))) hello_ai)
           (lit "a") (lit "b") 403 403 (inr JNull) (inl (Exn OtherException []))
           eq_refl eq_refl H H E).
Defined.

(** ** Replies are never empty *)

Lemma join_not_empty (sep b : str) (rs : list str) : b ≠ [] → join sep (b :: rs) ≠ [].
Proof.
  intros Hb. destruct rs as [|r rs]; cbn [join]; [done|].
  intros [E _]%app_eq_nil. done.
Qed.

Lemma format_item_not_empty (w : World) (item : json) (b : str) :
  (format_item w item).1 = Returns b → b ≠ [].
Proof.
  unfold format_item, subscript.
  destruct item as [| | | | |m]; try discriminate.
  destruct (m !! lit "title"); [|discriminate].
  destruct (m !! lit "snippet"); [|discriminate].
  destruct (m !! lit "link"); [|discriminate].
  intros [= <-]. intros [_ E]%app_eq_nil. discriminate E.
Qed.

Lemma for_each_head {A B} (f : A → M B) (x : A) (xs : list A) (ys : list B) :
  (for_each f (x :: xs)).1 = Returns ys →
  ∃ y ys', ys = y :: ys' ∧ (f x).1 = Returns y.
Proof.
  cbn [for_each]. rewrite bind_run.
  destruct (f x) as [[y|e] t]; [|discriminate]. cbn [fst snd].
  rewrite bind_run. destruct (for_each f xs) as [[ys'|e] t']; [|discriminate].
  intros [= <-]. by exists y, ys'.
Qed.

Lemma iterate_truthy (v : json) (elems : list json) :
  truthy v = true → (iterate v).1 = Returns elems → elems ≠ [].
Proof.
  destruct v as [|b|z|s|l|m]; try discriminate; cbn [truthy iterate ret fst].
  - destruct s; [discriminate|]. by intros _ [= <-].
  - destruct l; [discriminate|]. by intros _ [= <-].
  - intros Hm [= <-]. destruct (map_to_list m) eqn:E; [|done].
    apply map_to_list_empty_iff in E. subst m. discriminate Hm.
Qed.

Lemma google_search_not_empty (w : World) (q r : str) :
  (google_search w q).1 = Returns r → r ≠ [].
Proof.
  destruct (http_get w search_url (search_params w q)) as [e|status body] eqn:Hg.
  { unfold google_search, session_get. rewrite !bind_run, Hg. discriminate. }
  destruct (Z.eq_dec status 200%Z) as [->|Hs].
  2:{ rewrite (google_search_status w q status body Hg Hs). by intros [= <-]. }
  destruct body as [e|data].
  { unfold google_search, session_get. rewrite !bind_run, Hg. discriminate. }
  destruct data as [| | | | |m];
    try (unfold google_search, session_get; rewrite !bind_run, Hg; discriminate).
  rewrite (google_search_object w q m Hg).
  destruct (truthy (default (JArr []) (m !! lit "items"))) eqn:Ht; cbn [negb];
    [|by intros [= <-]].
  destruct (iterate (default (JArr []) (m !! lit "items"))).1 as [elems|e] eqn:Hit;
    [|discriminate].
  pose proof (iterate_truthy _ _ Ht Hit) as Hne.
  destruct elems as [|item items]; [done|].
  destruct (for_each (format_item w) (item :: items)).1 as [rs|e] eqn:Hfe;
    [|discriminate].
  destruct (for_each_head _ _ _ _ Hfe) as (b & rs' & -> & Hb).
  intros E. assert (r = join (nl ++ nl) (b :: rs')) as -> by congruence.
  apply join_not_empty. by apply (format_item_not_empty w item).
Qed.

Lemma fetch_joke_not_empty (w : World) (r : str) :
  (fetch_joke w).1 = Returns r → r ≠ [].
Proof.
  unfold fetch_joke, session_get. rewrite !bind_run.
  destruct (http_get w joke_url []) as [e|status body]; [discriminate|]. simpl.
  destruct (negb (status =? 200)%Z); [by intros [= <-]|].
  destruct body as [e|data]; [discriminate|].
  destruct data; try discriminate. simpl.
  intros [= <-]. intros [_ E]%app_eq_nil. discriminate E.
Qed.

(** X18.  [handle_message] never sends an empty reply of its own: an
    empty text can reach the chat only as the answer of the AI handler to
    a Chat message, when the first prediction carries an empty
    "content". *)
Theorem empty_reply_only_from_ai (w : World) (raw : str) :
  [] ∈ answers (handle_message w raw).2 →
  ∃ p first rest,
    classify w raw = Chat p
    ∧ predict w p = Predictions (first :: rest)
    ∧ first !! lit "content" = Some [].
Proof.
  rewrite handle_message_dispatch.
  destruct (classify w raw) as [| |q|expr| |p|t] eqn:Hc.
  - intros H. cbn in H. members H.
  - intros H. cbn in H. members H.
  - rewrite dispatch_search.
    destruct (google_search w q).1 as [r|e] eqn:Hr; intros H; cbn in H; members H.
    by apply google_search_not_empty in Hr.
  - rewrite dispatch_solve.
    destruct (sympify_evalf w expr) as [shown|e]; [intros H; cbn in H; members H|].
    destruct (is_SympifyError e); intros H; cbn in H; members H.
  - rewrite dispatch_joke.
    destruct (fetch_joke w).1 as [r|e] eqn:Hr; intros H; cbn in H; members H.
    by apply fetch_joke_not_empty in Hr.
  - destruct (decide (p = [])) as [->|Hp]; [intros H; cbn in H; members H|].
    destruct (dispatch_chat w p Hp) as (r & Hr & ->).
    intros H. cbn [snd] in H. rewrite !answers_app, chat_events_silent in H.
    cbn in H. members H. subst r.
    unfold chat_with_vertex_ai, new_request, call_predict in Hr.
    rewrite !bind_run in Hr. simpl in Hr.
    destruct (build_request w p) as [e|]; simpl in Hr; [discriminate Hr|].
    destruct (predict w p) as [e|[|first rest]] eqn:Hpred; try discriminate Hr.
    exists p, first, rest. split; [done|]. split; [done|].
    injection Hr as Hr.
    destruct (first !! lit "content") as [c|]; [cbn in Hr; by subst c|discriminate Hr].
  - intros H. cbn in H. members H.
Qed.

Lemma empty_reply_only_from_ai_witness :
  [] ∈ answers (handle_message silent_ai_world (lit "chat: hi")).2
  ∧ ∃ p first rest,
      classify silent_ai_world (lit "chat: hi") = Chat p
      ∧ predict silent_ai_world p = Predictions (first :: rest)
      ∧ first !! lit "content" = Some [].
Proof.
  assert (H : [] ∈ answers (handle_message silent_ai_world (lit "chat: hi")).2).
  { change ([] ∈ [thinking_text; []]).
    apply list_elem_of_further, list_elem_of_here. }
  split; [exact H|].
  exact (empty_reply_only_from_ai silent_ai_world (lit "chat: hi") H).
Defined.

